(** * Geany plugin manager ([src/plugins.c]): load, verify, register, unload.

    A shallow embedding of [plugins.c].  The C file keeps one piece of
    mutable state of its own, the static [plugin_list], next to four static
    function tables; everything else it does is a call into GLib's dynamic
    module loader, into the plugin's entry points, or into the logger.  The
    embedding threads the static variables through a state monad and records
    every such call, in program order, as an event. *)

From Stdlib Require Import List String ZArith Bool Arith Lia Permutation.
Import ListNotations.
Local Open Scope string_scope.
Local Open Scope list_scope.

(** ** Data model *)

(** Addresses of host objects and of plugin code; [NULL] is [None] wherever a
    pointer may be null. *)
Definition gpointer := nat.

(** Host functions whose address [init_function_pointers] takes. *)
Inductive HostFn : Type :=
| addr_document_new_file
| addr_templates_get_template_fileheader
| addr_sci_set_text
| addr_utils_str_equal
| addr_utils_str_replace.

Record DocumentFuncs := { new_file : option HostFn }.
Record ScintillaFuncs := { set_text : option HostFn }.
Record TemplateFuncs := { get_template_fileheader : option HostFn }.
Record UtilsFuncs := { str_equal : option HostFn; str_replace : option HostFn }.

(** The four static tables; [PluginData] points at them ([&doc_funcs], ...). *)
Inductive StaticTable : Type :=
| ref_doc_funcs | ref_sci_funcs | ref_template_funcs | ref_utils_funcs.

Record PluginData := {
  app : option gpointer;
  tools_menu : option gpointer;
  doc_array : option gpointer;
  document : option StaticTable;
  sci : option StaticTable;
  templates : option StaticTable;
  utils : option StaticTable
}.

(** What [info()] returns, with the two fields the file reads; [name] may be
    [NULL] (the C code guards it with [NVL]). *)
Record PluginInfo := {
  name : option string;
  description : option string
}.

(** An opened [GModule]: its address, the name [g_module_name] reports for it,
    and what [g_module_symbol] finds under the four names the manager asks
    for ([None] when the symbol is not exported).  [version_check] is the
    plugin's own function from [gint] to [gint]; [info] is represented by the
    structure it returns; [init] and [cleanup] are opaque code addresses. *)
Record GModule := {
  module_addr : gpointer;
  module_file_name : string;
  sym_version_check : option (Z -> Z);
  sym_info : option PluginInfo;
  sym_init : option gpointer;
  sym_cleanup : option gpointer
}.

(** [typedef struct Plugin]; [g_new0] zero-fills it, hence the options. *)
Record Plugin := {
  module : option GModule;
  filename : option string;
  data : PluginData;
  info : option PluginInfo;
  init : option gpointer;
  cleanup : option gpointer
}.

(** What the outside world provides: GLib's module loader, the host
    application, the build-time constants of [LIBDIR], the [NVL] macro of
    Geany's headers and the directory lister. *)
Record Host := {
  g_module_supported : bool;
  g_module_open : string -> option GModule;
  g_module_close : GModule -> bool;
  abi_version : Z;
  host_app : option gpointer;
  host_doc_array : option gpointer;
  lookup_widget : string -> option gpointer;
  PACKAGE_DATA_DIR : string;
  PACKAGE : string;
  G_DIR_SEPARATOR_S : string;
  NVL : option string -> string -> string;
  utils_get_file_list : string -> list string
}.

(** The diagnostics the file prints, one constructor per format string, with
    the format's arguments (the text of [g_module_error()] is the loader's
    and is left out). *)
Inductive Message : Type :=
| msg_module_error
| msg_close_error (fname : option string)
| msg_already_loaded (fname : string)
| msg_not_binary_compatible (module_name : string)
| msg_requires_newer (module_name : string) (result : Z)
| msg_unknown_info (fname : string)
| msg_initializing (pname pdescription : option string)
| msg_loaded (fname : string) (pname : string)
| msg_unloaded (fname : option string)
| msg_assertion_failed (expr : string).

(** Every externally visible step. *)
Inductive Event : Type :=
| EvModuleOpen (fname : string) (res : option GModule)
| EvModuleClose (m : GModule) (ok : bool)
| EvVersionCheck (m : GModule) (abi result : Z)
| EvCallInfo (i : PluginInfo)
| EvCallInit (f : gpointer) (d : PluginData)
| EvCallCleanup (f : gpointer)
| EvCritical (msg : Message)
| EvWarning (msg : Message)
| EvDebug (msg : Message)
| EvFreePlugin (p : Plugin)
| EvListFree (l : list Plugin).

(** The static variables of [plugins.c].  A [GList *] is the sequence of its
    elements, [NULL] being the empty list. *)
Record State := {
  doc_funcs : DocumentFuncs;
  sci_funcs : ScintillaFuncs;
  template_funcs : TemplateFuncs;
  utils_funcs : UtilsFuncs;
  plugin_list : list Plugin
}.

(** The C initialisers: zeroed tables and [plugin_list = NULL]. *)
Definition initial_state : State :=
  {| doc_funcs := {| new_file := None |};
     sci_funcs := {| set_text := None |};
     template_funcs := {| get_template_fileheader := None |};
     utils_funcs := {| str_equal := None; str_replace := None |};
     plugin_list := [] |}.

(** ** The monad: static state threaded, events written in order *)

Definition M (A : Type) : Type := State -> A * State * list Event.

Definition ret {A} (a : A) : M A := fun st => (a, st, []).

Definition bind {A B} (m : M A) (k : A -> M B) : M B :=
  fun st =>
    let '(a, st1, e1) := m st in
    let '(b, st2, e2) := k a st1 in
    (b, st2, e1 ++ e2).

Declare Scope plugin_scope.
Delimit Scope plugin_scope with plugin.
Notation "x <- m ;; k" := (bind m (fun x => k))
  (at level 61, m at next level, right associativity) : plugin_scope.
Notation "m ;; k" := (bind m (fun _ => k))
  (at level 61, right associativity) : plugin_scope.
Local Open Scope plugin_scope.

Definition get : M State := fun st => (st, st, []).
Definition put (st : State) : M unit := fun _ => (tt, st, []).
Definition emit (e : Event) : M unit := fun st => (tt, st, [e]).

Definition result_of {A} (r : A * State * list Event) : A := fst (fst r).
Definition state_of {A} (r : A * State * list Event) : State := snd (fst r).
Definition events_of {A} (r : A * State * list Event) : list Event := snd r.

(** A C loop over a list, front to back. *)
Fixpoint for_each {A} (l : list A) (body : A -> M unit) : M unit :=
  match l with
  | [] => ret tt
  | x :: rest => body x ;; for_each rest body
  end.

(** ** GLib and Geany helpers used by the file *)

Definition g_module_name (m : GModule) : string := module_file_name m.

(** Modelled from the spec: [utils_str_equal] (Geany's [utils.c], not part of
    the sources at hand) decides whether two canonical identities match;
    both arguments are non-null here. *)
Definition utils_str_equal (a b : string) : bool := String.eqb a b.

Definition g_list_append (l : list Plugin) (p : Plugin) : list Plugin := l ++ [p].

(** The loggers print; the embedding records what they are given. *)
Definition g_warning (msg : Message) : M unit := emit (EvWarning msg).
Definition geany_debug (msg : Message) : M unit := emit (EvDebug msg).
(** [g_return_if_fail] logs the failed expression at critical level. *)
Definition g_return_if_fail_warning (expr : string) : M unit :=
  emit (EvCritical (msg_assertion_failed expr)).

(** The loop body's assignment [plugin_list = g_list_append(plugin_list, p)]. *)
Definition append_record (st : State) (p : Plugin) : State :=
  {| doc_funcs := doc_funcs st;
     sci_funcs := sci_funcs st;
     template_funcs := template_funcs st;
     utils_funcs := utils_funcs st;
     plugin_list := g_list_append (plugin_list st) p |}.

Section Manager.

Variable host : Host.

(** [#define LIBDIR PACKAGE_DATA_DIR "/" ".." "/" "lib" "/" PACKAGE] *)
Definition LIBDIR : string :=
  (PACKAGE_DATA_DIR host ++ G_DIR_SEPARATOR_S host ++ ".." ++
   G_DIR_SEPARATOR_S host ++ "lib" ++ G_DIR_SEPARATOR_S host ++ PACKAGE host)%string.

Definition module_open (fname : string) : M (option GModule) :=
  let res := g_module_open host fname in
  emit (EvModuleOpen fname res) ;; ret res.

Definition module_close (m : GModule) : M bool :=
  let ok := g_module_close host m in
  emit (EvModuleClose m ok) ;; ret ok.

(** The idiom [if (! g_module_close(module)) g_warning("%s: %s", fname, ...)]
    that closes each rejection branch of [plugin_new]. *)
Definition close_or_warn (fname : string) (m : GModule) : M unit :=
  ok <- module_close m ;;
  if negb ok then g_warning (msg_close_error (Some fname)) else ret tt.

(** ** [plugins.c] *)

Definition init_function_pointers : M unit :=
  st <- get ;;
  put {| doc_funcs := {| new_file := Some addr_document_new_file |};
         sci_funcs := {| set_text := Some addr_sci_set_text |};
         template_funcs :=
           {| get_template_fileheader :=
                Some addr_templates_get_template_fileheader |};
         utils_funcs := {| str_equal := Some addr_utils_str_equal;
                           str_replace := Some addr_utils_str_replace |};
         plugin_list := plugin_list st |}.

Definition init_plugin_data : PluginData :=
  {| app := host_app host;
     tools_menu := lookup_widget host "tools1_menu";
     doc_array := host_doc_array host;
     document := Some ref_doc_funcs;
     sci := Some ref_sci_funcs;
     templates := Some ref_template_funcs;
     utils := Some ref_utils_funcs |}.

(** The [for] loop of [plugin_loaded].  A record without a module has no
    name ([g_module_name(NULL)] is [NULL]) and matches nothing. *)
Fixpoint plugin_loaded_items (fname : string) (items : list Plugin) : bool :=
  match items with
  | [] => false
  | p :: rest =>
      match module p with
      | Some pm =>
          if utils_str_equal fname (g_module_name pm) then true
          else plugin_loaded_items fname rest
      | None => plugin_loaded_items fname rest
      end
  end.

Definition plugin_loaded (m : GModule) : M bool :=
  let fname := g_module_name m in
  st <- get ;;
  ret (plugin_loaded_items fname (plugin_list st)).

Definition plugin_check_version (m : GModule) : M bool :=
  match sym_version_check m with
  | Some version_check =>
      let result := version_check (abi_version host) in
      emit (EvVersionCheck m (abi_version host) result) ;;
      if (result <? 0)%Z then
        geany_debug (msg_not_binary_compatible (g_module_name m)) ;;
        ret false
      else if (result >? 0)%Z then
        geany_debug (msg_requires_newer (g_module_name m) result) ;;
        ret false
      else ret true
  | None => ret true
  end.

Definition plugin_new (fname : option string) : M (option Plugin) :=
  match fname with
  | None => g_return_if_fail_warning "fname" ;; ret None
  | Some fname =>
      if negb (g_module_supported host) then
        g_return_if_fail_warning "g_module_supported()" ;; ret None
      else
        opened <- module_open fname ;;
        match opened with
        | None => g_warning msg_module_error ;; ret None
        | Some m =>
            loaded <- plugin_loaded m ;;
            if loaded then
              geany_debug (msg_already_loaded fname) ;;
              close_or_warn fname m ;;
              ret None
            else
              compatible <- plugin_check_version m ;;
              if negb compatible then
                close_or_warn fname m ;;
                ret None
              else
                match sym_info m with
                | None =>
                    geany_debug (msg_unknown_info fname) ;;
                    close_or_warn fname m ;;
                    ret None
                | Some i =>
                    emit (EvCallInfo i) ;;
                    emit (EvCallInfo i) ;;
                    geany_debug (msg_initializing (name i) (description i)) ;;
                    let plugin :=
                      {| module := Some m;
                         filename := Some fname;
                         data := init_plugin_data;
                         info := Some i;
                         init := sym_init m;
                         cleanup := sym_cleanup m |} in
                    match init plugin with
                    | Some f => emit (EvCallInit f (data plugin))
                    | None => ret tt
                    end ;;
                    emit (EvCallInfo i) ;;
                    geany_debug (msg_loaded fname (NVL host (name i) "<Unknown>")) ;;
                    ret (Some plugin)
                end
        end
  end.

Definition plugin_free (plugin : option Plugin) : M unit :=
  match plugin with
  | None => g_return_if_fail_warning "plugin"
  | Some p =>
      match module p with
      | None => g_return_if_fail_warning "plugin->module"
      | Some m =>
          match cleanup p with
          | Some f => emit (EvCallCleanup f)
          | None => ret tt
          end ;;
          ok <- module_close m ;;
          (if negb ok then g_warning (msg_close_error (filename p))
           else geany_debug (msg_unloaded (filename p))) ;;
          emit (EvFreePlugin p)
      end
  end.

(** The body of the loop of [plugins_init] once [fname] has been built:
    [plugin_new], then [g_list_append] when it returned a record.  This is
    the operation the specification calls [load_one]. *)
Definition load_one (fname : string) : M unit :=
  plugin <- plugin_new (Some fname) ;;
  match plugin with
  | Some p => st <- get ;; put (append_record st p)
  | None => ret tt
  end.

(** The strings [plugins_init] builds and frees on the way ([fname], the file
    list) never escape it and are not tracked. *)
Definition plugins_init : M unit :=
  let path := LIBDIR in
  init_function_pointers ;;
  let list := utils_get_file_list host path in
  for_each list (fun item =>
    load_one (path ++ G_DIR_SEPARATOR_S host ++ item)%string).

(** [g_list_foreach(plugin_list, (GFunc) plugin_free, NULL)] *)
Definition g_list_foreach (l : list Plugin) (f : option Plugin -> M unit) : M unit :=
  for_each l (fun p => f (Some p)).

(** [g_list_free] releases the nodes of the list it is given; it is handed
    the value of [plugin_list], and nothing assigns to the variable. *)
Definition g_list_free (l : list Plugin) : M unit := emit (EvListFree l).

Definition plugins_free : M unit :=
  st <- get ;;
  match plugin_list st with
  | [] => ret tt
  | _ :: _ =>
      g_list_foreach (plugin_list st) plugin_free ;;
      g_list_free (plugin_list st)
  end.

End Manager.

(** ** Reading a trace *)

(** Modules handed to [g_module_close], in call order. *)
Fixpoint closed_modules (tr : list Event) : list GModule :=
  match tr with
  | [] => []
  | EvModuleClose m _ :: rest => m :: closed_modules rest
  | _ :: rest => closed_modules rest
  end.

(** Modules [g_module_open] returned, in call order. *)
Fixpoint opened_modules (tr : list Event) : list GModule :=
  match tr with
  | [] => []
  | EvModuleOpen _ (Some m) :: rest => m :: opened_modules rest
  | _ :: rest => opened_modules rest
  end.

(** Paths handed to [g_module_open], in call order. *)
Fixpoint open_attempts (tr : list Event) : list string :=
  match tr with
  | [] => []
  | EvModuleOpen fname _ :: rest => fname :: open_attempts rest
  | _ :: rest => open_attempts rest
  end.

Fixpoint init_calls (tr : list Event) : list gpointer :=
  match tr with
  | [] => []
  | EvCallInit f _ :: rest => f :: init_calls rest
  | _ :: rest => init_calls rest
  end.

Fixpoint cleanup_calls (tr : list Event) : list gpointer :=
  match tr with
  | [] => []
  | EvCallCleanup f :: rest => f :: cleanup_calls rest
  | _ :: rest => cleanup_calls rest
  end.

(** Messages logged at warning or critical level. *)
Fixpoint complaints (tr : list Event) : list Message :=
  match tr with
  | [] => []
  | EvWarning msg :: rest => msg :: complaints rest
  | EvCritical msg :: rest => msg :: complaints rest
  | _ :: rest => complaints rest
  end.

(** Files reported as loaded, in log order. *)
Fixpoint loaded_files (tr : list Event) : list string :=
  match tr with
  | [] => []
  | EvDebug (msg_loaded fname _) :: rest => fname :: loaded_files rest
  | _ :: rest => loaded_files rest
  end.

(** The specification's vocabulary for what a load attempt ends in.  The C
    code returns [NULL] for every rejection and tells them apart only by the
    diagnostic it prints; [outcome_of_event] reads the outcome back from that
    diagnostic. *)
Inductive LoadError : Type :=
| GuardFailed
| OpenFailed
| AlreadyLoaded
| TooOld
| RequiresNewerHost (min_version : Z)
| MissingInfo.

Inductive Outcome : Type :=
| Loaded
| Rejected (reason : LoadError).

Definition outcome_of_event (e : Event) : option Outcome :=
  match e with
  | EvCritical _ => Some (Rejected GuardFailed)
  | EvWarning msg_module_error => Some (Rejected OpenFailed)
  | EvDebug (msg_already_loaded _) => Some (Rejected AlreadyLoaded)
  | EvDebug (msg_not_binary_compatible _) => Some (Rejected TooOld)
  | EvDebug (msg_requires_newer _ result) => Some (Rejected (RequiresNewerHost result))
  | EvDebug (msg_unknown_info _) => Some (Rejected MissingInfo)
  | EvDebug (msg_loaded _ _) => Some Loaded
  | _ => None
  end.

(** The load report a trace amounts to: its outcomes, in order. *)
Fixpoint load_report (tr : list Event) : list Outcome :=
  match tr with
  | [] => []
  | e :: rest =>
      match outcome_of_event e with
      | Some o => o :: load_report rest
      | None => load_report rest
      end
  end.

Definition is_loaded (o : Outcome) : bool :=
  match o with
  | Loaded => true
  | Rejected _ => false
  end.

(** Canonical identities of the live records, in list order. *)
Fixpoint live_identities (l : list Plugin) : list string :=
  match l with
  | [] => []
  | p :: rest =>
      match module p with
      | Some m => g_module_name m :: live_identities rest
      | None => live_identities rest
      end
  end.

(** The state the manager is in after a sequence of [load_one] calls issued
    from program start; [plugins_init] reaches exactly these states. *)
Definition run_loads (host : Host) (fnames : list string)
  : unit * State * list Event :=
  (init_function_pointers ;; for_each fnames (load_one host)) initial_state.

Definition after_loads (host : Host) (fnames : list string) : State :=
  state_of (run_loads host fnames).

(** The version gate and the conjunction of all gates but the duplicate
    check, as they depend on the module alone. *)
Definition version_ok (host : Host) (m : GModule) : bool :=
  match sym_version_check m with
  | Some version_check => (version_check (abi_version host) =? 0)%Z
  | None => true
  end.

Definition passes_every_gate (host : Host) (fname : string) : bool :=
  match g_module_open host fname with
  | Some m =>
      version_ok host m &&
      match sym_info m with Some _ => true | None => false end
  | None => false
  end.

(** Identities of the candidates the loader can open, in candidate order. *)
Fixpoint candidate_identities (host : Host) (fnames : list string) : list string :=
  match fnames with
  | [] => []
  | f :: rest =>
      match g_module_open host f with
      | Some m => g_module_name m :: candidate_identities host rest
      | None => candidate_identities host rest
      end
  end.

(** The events of the closing idiom of [plugin_new]'s rejection branches. *)
Definition close_events (host : Host) (fname : string) (m : GModule) : list Event :=
  EvModuleClose m (g_module_close host m) ::
  (if g_module_close host m then [] else [EvWarning (msg_close_error (Some fname))]).

(** The events of [plugin_check_version]. *)
Definition version_events (host : Host) (m : GModule) : list Event :=
  match sym_version_check m with
  | Some version_check =>
      let result := version_check (abi_version host) in
      EvVersionCheck m (abi_version host) result ::
      (if (result <? 0)%Z then
         [EvDebug (msg_not_binary_compatible (g_module_name m))]
       else if (result >? 0)%Z then
         [EvDebug (msg_requires_newer (g_module_name m) result)]
       else [])
  | None => []
  end.

(** The record [plugin_new] builds for a module that passed every gate. *)
Definition new_record (host : Host) (fname : string) (m : GModule) (i : PluginInfo)
  : Plugin :=
  {| module := Some m;
     filename := Some fname;
     data := init_plugin_data host;
     info := Some i;
     init := sym_init m;
     cleanup := sym_cleanup m |}.

(** The events of the successful path of [plugin_new], after the gates. *)
Definition init_events (host : Host) (fname : string) (m : GModule) (i : PluginInfo)
  : list Event :=
  [EvCallInfo i; EvCallInfo i; EvDebug (msg_initializing (name i) (description i))] ++
  match sym_init m with
  | Some f => [EvCallInit f (init_plugin_data host)]
  | None => []
  end ++
  [EvCallInfo i; EvDebug (msg_loaded fname (NVL host (name i) "<Unknown>"))].

(** What [plugin_free] does to a record that has a module: the optional
    cleanup call, the close, its log line, the release of the record. *)
Definition cleanup_events (p : Plugin) : list Event :=
  match cleanup p with
  | Some f => [EvCallCleanup f]
  | None => []
  end.

Definition release_events (host : Host) (p : Plugin) (m : GModule) : list Event :=
  [EvModuleClose m (g_module_close host m);
   if g_module_close host m then EvDebug (msg_unloaded (filename p))
   else EvWarning (msg_close_error (filename p));
   EvFreePlugin p].

(** The seven ways through [plugin_new], each with the conditions that select
    it and the result, state and events it ends with. *)
Inductive plugin_new_path (host : Host) (st : State) (fname : option string)
  : option Plugin * State * list Event -> Prop :=
| path_null :
    fname = None ->
    plugin_new_path host st fname
      (None, st, [EvCritical (msg_assertion_failed "fname")])
| path_unsupported f :
    fname = Some f ->
    g_module_supported host = false ->
    plugin_new_path host st fname
      (None, st, [EvCritical (msg_assertion_failed "g_module_supported()")])
| path_open_failed f :
    fname = Some f ->
    g_module_supported host = true ->
    g_module_open host f = None ->
    plugin_new_path host st fname
      (None, st, [EvModuleOpen f None; EvWarning msg_module_error])
| path_already_loaded f m :
    fname = Some f ->
    g_module_supported host = true ->
    g_module_open host f = Some m ->
    plugin_loaded_items (g_module_name m) (plugin_list st) = true ->
    plugin_new_path host st fname
      (None, st,
       EvModuleOpen f (Some m) :: EvDebug (msg_already_loaded f) ::
       close_events host f m)
| path_incompatible f m :
    fname = Some f ->
    g_module_supported host = true ->
    g_module_open host f = Some m ->
    plugin_loaded_items (g_module_name m) (plugin_list st) = false ->
    version_ok host m = false ->
    plugin_new_path host st fname
      (None, st,
       EvModuleOpen f (Some m) ::
       version_events host m ++ close_events host f m)
| path_missing_info f m :
    fname = Some f ->
    g_module_supported host = true ->
    g_module_open host f = Some m ->
    plugin_loaded_items (g_module_name m) (plugin_list st) = false ->
    version_ok host m = true ->
    sym_info m = None ->
    plugin_new_path host st fname
      (None, st,
       EvModuleOpen f (Some m) :: version_events host m ++
       EvDebug (msg_unknown_info f) :: close_events host f m)
| path_loaded f m i :
    fname = Some f ->
    g_module_supported host = true ->
    g_module_open host f = Some m ->
    plugin_loaded_items (g_module_name m) (plugin_list st) = false ->
    version_ok host m = true ->
    sym_info m = Some i ->
    plugin_new_path host st fname
      (Some (new_record host f m i), st,
       EvModuleOpen f (Some m) :: version_events host m ++
       init_events host f m i).

(** A load attempt that got a handle and gave it back: no record returned,
    the one module opened is the one module closed, [init] was not called and
    the live set is what it was. *)
Definition rejected_and_released (host : Host) (st : State) (fname : string)
  (m : GModule) : Prop :=
  result_of (plugin_new host (Some fname) st) = None /\
  opened_modules (events_of (plugin_new host (Some fname) st)) = [m] /\
  closed_modules (events_of (plugin_new host (Some fname) st)) = [m] /\
  init_calls (events_of (plugin_new host (Some fname) st)) = [] /\
  plugin_list (state_of (load_one host fname st)) = plugin_list st.

(** Everything [plugin_free] does to one element of [plugin_list]. *)
Definition unload_events (host : Host) (p : Plugin) : list Event :=
  match module p with
  | Some m => cleanup_events p ++ release_events host p m
  | None => [EvCritical (msg_assertion_failed "plugin->module")]
  end.

(** Records released by [plugin_free], in order. *)
Fixpoint freed_records (tr : list Event) : list Plugin :=
  match tr with
  | [] => []
  | EvFreePlugin p :: rest => p :: freed_records rest
  | _ :: rest => freed_records rest
  end.

(** The [cleanup] entry points of a list of records, in list order. *)
Fixpoint cleanup_entries (l : list Plugin) : list gpointer :=
  match l with
  | [] => []
  | p :: rest =>
      match cleanup p with
      | Some f => f :: cleanup_entries rest
      | None => cleanup_entries rest
      end
  end.

(** The paths [plugins_init] hands to [plugin_new], in discovery order. *)
Definition candidate_paths (host : Host) : list string :=
  map (fun item => (LIBDIR host ++ G_DIR_SEPARATOR_S host ++ item)%string)
      (utils_get_file_list host (LIBDIR host)).

(** The outcome the specification's [load_one] assigns to a candidate that
    collides with no live record: steps 1 (open), 3 (version) and 4
    ([info]) of its description, in its words. *)
Definition gate_outcome (host : Host) (fname : string) : Outcome :=
  match g_module_open host fname with
  | None => Rejected OpenFailed
  | Some m =>
      let info_step :=
        match sym_info m with
        | Some _ => Loaded
        | None => Rejected MissingInfo
        end in
      match sym_version_check m with
      | None => info_step
      | Some version_check =>
          let result := version_check (abi_version host) in
          if (result <? 0)%Z then Rejected TooOld
          else if (0 <? result)%Z then Rejected (RequiresNewerHost result)
          else info_step
      end
  end.

(** Arguments and results of the calls of [version_check], in call order. *)
Fixpoint version_check_calls (tr : list Event) : list (Z * Z) :=
  match tr with
  | [] => []
  | EvVersionCheck _ abi result :: rest => (abi, result) :: version_check_calls rest
  | _ :: rest => version_check_calls rest
  end.

(** Results of the calls of [info], in call order. *)
Fixpoint info_calls (tr : list Event) : list PluginInfo :=
  match tr with
  | [] => []
  | EvCallInfo i :: rest => i :: info_calls rest
  | _ :: rest => info_calls rest
  end.

(** The calls of [init] with the [PluginData] each was handed. *)
Fixpoint init_invocations (tr : list Event) : list (gpointer * PluginData) :=
  match tr with
  | [] => []
  | EvCallInit f d :: rest => (f, d) :: init_invocations rest
  | _ :: rest => init_invocations rest
  end.

(** Messages printed with [geany_debug]. *)
Fixpoint debug_messages (tr : list Event) : list Message :=
  match tr with
  | [] => []
  | EvDebug msg :: rest => msg :: debug_messages rest
  | _ :: rest => debug_messages rest
  end.

(** The [init] entry points of a list of records with each record's own
    [data], in list order. *)
Fixpoint init_entries (l : list Plugin) : list (gpointer * PluginData) :=
  match l with
  | [] => []
  | p :: rest =>
      match init p with
      | Some f => (f, data p) :: init_entries rest
      | None => init_entries rest
      end
  end.


(** The modules of a list of records, in list order. *)
Fixpoint live_modules (l : list Plugin) : list GModule :=
  match l with
  | [] => []
  | p :: rest =>
      match module p with
      | Some m => m :: live_modules rest
      | None => live_modules rest
      end
  end.

(** Identities of the candidates that pass every gate, in candidate order. *)
Fixpoint passing_identities (host : Host) (fnames : list string) : list string :=
  match fnames with
  | [] => []
  | f :: rest =>
      match g_module_open host f with
      | Some m =>
          if passes_every_gate host f
          then g_module_name m :: passing_identities host rest
          else passing_identities host rest
      | None => passing_identities host rest
      end
  end.

(** The warning [plugin_free] prints for a record whose module the loader
    fails to close. *)
Fixpoint close_failures (host : Host) (l : list Plugin) : list Message :=
  match l with
  | [] => []
  | p :: rest =>
      match module p with
      | Some m =>
          if g_module_close host m then close_failures host rest
          else msg_close_error (filename p) :: close_failures host rest
      | None => close_failures host rest
      end
  end.

(** The four tables as [init_function_pointers] leaves them. *)
Definition tables_populated (st : State) : Prop :=
  new_file (doc_funcs st) = Some addr_document_new_file /\
  set_text (sci_funcs st) = Some addr_sci_set_text /\
  get_template_fileheader (template_funcs st) =
    Some addr_templates_get_template_fileheader /\
  str_equal (utils_funcs st) = Some addr_utils_str_equal /\
  str_replace (utils_funcs st) = Some addr_utils_str_replace.

(** ** A concrete plugin directory

    The directory of the specification's end-to-end scenario, with a few
    more candidates: [a.so] exports everything and is compatible, [b.so] is a
    second name for the module behind [a.so], [c.so] asks for host API 1,
    [d.so] predates an ABI break, [e.so] lacks [info], [f.txt] is no module
    and [g.so] exports [info] alone. *)
Module Demo.

Definition info_a : PluginInfo :=
  {| name := Some "Alpha"; description := Some "first" |}.
Definition info_g : PluginInfo :=
  {| name := None; description := Some "bare" |}.

Definition mod_a : GModule :=
  {| module_addr := 100; module_file_name := "/usr/lib/geany/a.so";
     sym_version_check := Some (fun _ => 0%Z); sym_info := Some info_a;
     sym_init := Some 101; sym_cleanup := Some 102 |}.
Definition mod_c : GModule :=
  {| module_addr := 300; module_file_name := "/usr/lib/geany/c.so";
     sym_version_check := Some (fun _ => 1%Z); sym_info := Some info_a;
     sym_init := Some 301; sym_cleanup := None |}.
Definition mod_d : GModule :=
  {| module_addr := 400; module_file_name := "/usr/lib/geany/d.so";
     sym_version_check := Some (fun abi => (abi - 20)%Z); sym_info := Some info_a;
     sym_init := Some 401; sym_cleanup := Some 402 |}.
Definition mod_e : GModule :=
  {| module_addr := 500; module_file_name := "/usr/lib/geany/e.so";
     sym_version_check := None; sym_info := None;
     sym_init := Some 501; sym_cleanup := Some 502 |}.
Definition mod_g : GModule :=
  {| module_addr := 700; module_file_name := "/usr/lib/geany/g.so";
     sym_version_check := None; sym_info := Some info_g;
     sym_init := None; sym_cleanup := None |}.

Definition open (fname : string) : option GModule :=
  if String.eqb fname "/usr/share/geany/../lib/geany/a.so" then Some mod_a
  else if String.eqb fname "/usr/share/geany/../lib/geany/b.so" then Some mod_a
  else if String.eqb fname "/usr/share/geany/../lib/geany/c.so" then Some mod_c
  else if String.eqb fname "/usr/share/geany/../lib/geany/d.so" then Some mod_d
  else if String.eqb fname "/usr/share/geany/../lib/geany/e.so" then Some mod_e
  else if String.eqb fname "/usr/share/geany/../lib/geany/g.so" then Some mod_g
  else None.

(** [NVL(a, b)]: [b] in place of a null [a]. *)
Definition null_to (a : option string) (b : string) : string :=
  match a with
  | Some s => s
  | None => b
  end.

(** The loader fails to close [g.so], and only that one. *)
Definition close (m : GModule) : bool := negb (Nat.eqb (module_addr m) 700).

Definition host : Host :=
  {| g_module_supported := true;
     g_module_open := open;
     g_module_close := close;
     abi_version := 7%Z;
     host_app := Some 1;
     host_doc_array := Some 2;
     lookup_widget := fun _ => Some 3;
     PACKAGE_DATA_DIR := "/usr/share/geany";
     PACKAGE := "geany";
     G_DIR_SEPARATOR_S := "/";
     NVL := null_to;
     utils_get_file_list := fun _ =>
       ["a.so"; "b.so"; "c.so"; "d.so"; "e.so"; "f.txt"; "g.so"] |}.

(** The same platform without dynamic loading. *)
Definition host_without_modules : Host :=
  {| g_module_supported := false;
     g_module_open := open;
     g_module_close := close;
     abi_version := 7%Z;
     host_app := Some 1;
     host_doc_array := Some 2;
     lookup_widget := fun _ => Some 3;
     PACKAGE_DATA_DIR := "/usr/share/geany";
     PACKAGE := "geany";
     G_DIR_SEPARATOR_S := "/";
     NVL := null_to;
     utils_get_file_list := fun _ => ["a.so"] |}.

(** The same directory without the second name of [a.so]: every candidate
    the loader can open has an identity of its own. *)
Definition host_distinct : Host :=
  {| g_module_supported := true;
     g_module_open := open;
     g_module_close := close;
     abi_version := 7%Z;
     host_app := Some 1;
     host_doc_array := Some 2;
     lookup_widget := fun _ => Some 3;
     PACKAGE_DATA_DIR := "/usr/share/geany";
     PACKAGE := "geany";
     G_DIR_SEPARATOR_S := "/";
     NVL := null_to;
     utils_get_file_list := fun _ =>
       ["e.so"; "a.so"; "f.txt"; "c.so"; "g.so"; "d.so"] |}.

Definition path_a : string := "/usr/share/geany/../lib/geany/a.so".
Definition path_b : string := "/usr/share/geany/../lib/geany/b.so".
Definition path_c : string := "/usr/share/geany/../lib/geany/c.so".
Definition path_d : string := "/usr/share/geany/../lib/geany/d.so".
Definition path_e : string := "/usr/share/geany/../lib/geany/e.so".
Definition path_f : string := "/usr/share/geany/../lib/geany/f.txt".
Definition path_g : string := "/usr/share/geany/../lib/geany/g.so".

End Demo.

(** ** Basic facts: traces and the monad *)

Ltac observer_app l1 :=
  induction l1 as [|e l1 IH]; intros; simpl; auto;
  destruct e; simpl; try (rewrite IH); auto;
  repeat match goal with
  | |- context [match ?x with _ => _ end] => destruct x; simpl; try (rewrite IH); auto
  end.

Lemma closed_modules_app (l1 l2 : list Event) :
  closed_modules (l1 ++ l2) = closed_modules l1 ++ closed_modules l2.
Proof. revert l2; observer_app l1. Qed.

Lemma opened_modules_app (l1 l2 : list Event) :
  opened_modules (l1 ++ l2) = opened_modules l1 ++ opened_modules l2.
Proof. revert l2; observer_app l1. Qed.

Lemma open_attempts_app (l1 l2 : list Event) :
  open_attempts (l1 ++ l2) = open_attempts l1 ++ open_attempts l2.
Proof. revert l2; observer_app l1. Qed.

Lemma init_calls_app (l1 l2 : list Event) :
  init_calls (l1 ++ l2) = init_calls l1 ++ init_calls l2.
Proof. revert l2; observer_app l1. Qed.

Lemma cleanup_calls_app (l1 l2 : list Event) :
  cleanup_calls (l1 ++ l2) = cleanup_calls l1 ++ cleanup_calls l2.
Proof. revert l2; observer_app l1. Qed.

Lemma complaints_app (l1 l2 : list Event) :
  complaints (l1 ++ l2) = complaints l1 ++ complaints l2.
Proof. revert l2; observer_app l1. Qed.

Lemma loaded_files_app (l1 l2 : list Event) :
  loaded_files (l1 ++ l2) = loaded_files l1 ++ loaded_files l2.
Proof. revert l2; observer_app l1. Qed.

Lemma freed_records_app (l1 l2 : list Event) :
  freed_records (l1 ++ l2) = freed_records l1 ++ freed_records l2.
Proof. revert l2; observer_app l1. Qed.

Lemma load_report_app (l1 l2 : list Event) :
  load_report (l1 ++ l2) = load_report l1 ++ load_report l2.
Proof.
  induction l1 as [|e l1 IH]; simpl; auto.
  destruct (outcome_of_event e); simpl; rewrite IH; reflexivity.
Qed.

Lemma live_identities_app (l1 l2 : list Plugin) :
  live_identities (l1 ++ l2) = live_identities l1 ++ live_identities l2.
Proof.
  induction l1 as [|p l1 IH]; simpl; auto.
  destruct (module p); simpl; rewrite IH; reflexivity.
Qed.

Lemma run_bind {A B} (m : M A) (k : A -> M B) (st : State) :
  bind m k st =
  (result_of (k (result_of (m st)) (state_of (m st))),
   state_of (k (result_of (m st)) (state_of (m st))),
   events_of (m st) ++ events_of (k (result_of (m st)) (state_of (m st)))).
Proof.
  unfold bind, result_of, state_of, events_of.
  destruct (m st) as [[a st1] e1]; simpl.
  destruct (k a st1) as [[b st2] e2]; reflexivity.
Qed.

Lemma for_each_cons {A} (x : A) (l : list A) (body : A -> M unit) (st : State) :
  for_each (x :: l) body st =
  (tt, state_of (for_each l body (state_of (body x st))),
   events_of (body x st) ++ events_of (for_each l body (state_of (body x st)))).
Proof.
  simpl. rewrite run_bind. f_equal. f_equal.
  destruct (result_of _); reflexivity.
Qed.

Lemma for_each_app {A} (l1 l2 : list A) (body : A -> M unit) (st : State) :
  for_each (l1 ++ l2) body st =
  (tt, state_of (for_each l2 body (state_of (for_each l1 body st))),
   events_of (for_each l1 body st) ++
   events_of (for_each l2 body (state_of (for_each l1 body st)))).
Proof.
  revert st; induction l1 as [|x l1 IH]; intro st.
  - simpl. unfold ret, state_of, events_of; simpl.
    destruct (for_each l2 body st) as [[[] s] e]; reflexivity.
  - rewrite <- app_comm_cons, !for_each_cons.
    rewrite IH. unfold state_of, events_of; simpl.
    rewrite app_assoc. reflexivity.
Qed.

(** ** [plugin_new], path by path *)

Section PluginNew.

Variable host : Host.

Lemma plugin_check_version_run (m : GModule) (st : State) :
  plugin_check_version host m st = (version_ok host m, st, version_events host m).
Proof.
  unfold plugin_check_version, version_ok, version_events.
  destruct (sym_version_check m) as [vc|]; [|reflexivity].
  unfold bind, ret, emit, geany_debug; simpl.
  destruct (vc (abi_version host)) as [|r|r]; reflexivity.
Qed.

Lemma close_or_warn_run (fname : string) (m : GModule) (st : State) :
  close_or_warn host fname m st = (tt, st, close_events host fname m).
Proof.
  unfold close_or_warn, close_events, module_close, g_warning, bind, ret, emit; simpl.
  destruct (g_module_close host m); reflexivity.
Qed.

Lemma plugin_new_null (st : State) :
  plugin_new host None st =
  (None, st, [EvCritical (msg_assertion_failed "fname")]).
Proof. reflexivity. Qed.

Lemma plugin_new_unsupported (fname : string) (st : State) :
  g_module_supported host = false ->
  plugin_new host (Some fname) st =
  (None, st, [EvCritical (msg_assertion_failed "g_module_supported()")]).
Proof. intro H. unfold plugin_new. rewrite H. reflexivity. Qed.

Lemma plugin_new_open_failed (fname : string) (st : State) :
  g_module_supported host = true ->
  g_module_open host fname = None ->
  plugin_new host (Some fname) st =
  (None, st, [EvModuleOpen fname None; EvWarning msg_module_error]).
Proof.
  intros Hs Ho. unfold plugin_new. rewrite Hs. simpl.
  unfold module_open, bind, ret, emit, g_warning. rewrite Ho. reflexivity.
Qed.

Lemma plugin_new_already_loaded (fname : string) (m : GModule) (st : State) :
  g_module_supported host = true ->
  g_module_open host fname = Some m ->
  plugin_loaded_items (g_module_name m) (plugin_list st) = true ->
  plugin_new host (Some fname) st =
  (None, st,
   EvModuleOpen fname (Some m) :: EvDebug (msg_already_loaded fname) ::
   close_events host fname m).
Proof.
  intros Hs Ho Hl. unfold plugin_new. rewrite Hs. simpl.
  unfold module_open, bind, ret, emit; simpl. rewrite Ho.
  unfold plugin_loaded, get, bind, ret; simpl. rewrite Hl.
  unfold geany_debug, emit. rewrite close_or_warn_run. simpl.
  rewrite app_nil_r. reflexivity.
Qed.

Lemma plugin_new_incompatible (fname : string) (m : GModule) (st : State) :
  g_module_supported host = true ->
  g_module_open host fname = Some m ->
  plugin_loaded_items (g_module_name m) (plugin_list st) = false ->
  version_ok host m = false ->
  plugin_new host (Some fname) st =
  (None, st,
   EvModuleOpen fname (Some m) :: version_events host m ++ close_events host fname m).
Proof.
  intros Hs Ho Hl Hv. unfold plugin_new. rewrite Hs. simpl.
  unfold module_open, bind, ret, emit; simpl. rewrite Ho.
  unfold plugin_loaded, get, bind, ret; simpl. rewrite Hl.
  rewrite plugin_check_version_run, Hv. simpl.
  rewrite close_or_warn_run. simpl. rewrite app_nil_r. reflexivity.
Qed.

Lemma plugin_new_missing_info (fname : string) (m : GModule) (st : State) :
  g_module_supported host = true ->
  g_module_open host fname = Some m ->
  plugin_loaded_items (g_module_name m) (plugin_list st) = false ->
  version_ok host m = true ->
  sym_info m = None ->
  plugin_new host (Some fname) st =
  (None, st,
   EvModuleOpen fname (Some m) :: version_events host m ++
   EvDebug (msg_unknown_info fname) :: close_events host fname m).
Proof.
  intros Hs Ho Hl Hv Hi. unfold plugin_new. rewrite Hs. simpl.
  unfold module_open, bind, ret, emit; simpl. rewrite Ho.
  unfold plugin_loaded, get, bind, ret; simpl. rewrite Hl.
  rewrite plugin_check_version_run, Hv. simpl. rewrite Hi.
  unfold geany_debug, emit. rewrite close_or_warn_run. simpl.
  rewrite app_nil_r. reflexivity.
Qed.

Lemma plugin_new_loaded (fname : string) (m : GModule) (i : PluginInfo) (st : State) :
  g_module_supported host = true ->
  g_module_open host fname = Some m ->
  plugin_loaded_items (g_module_name m) (plugin_list st) = false ->
  version_ok host m = true ->
  sym_info m = Some i ->
  plugin_new host (Some fname) st =
  (Some (new_record host fname m i), st,
   EvModuleOpen fname (Some m) :: version_events host m ++ init_events host fname m i).
Proof.
  intros Hs Ho Hl Hv Hi. unfold plugin_new. rewrite Hs. simpl.
  unfold module_open, bind, ret, emit; simpl. rewrite Ho.
  unfold plugin_loaded, get, bind, ret; simpl. rewrite Hl.
  rewrite plugin_check_version_run, Hv. simpl. rewrite Hi.
  unfold geany_debug, emit, init_events, new_record. simpl.
  destruct (sym_init m); reflexivity.
Qed.

Lemma plugin_new_inv (fname : option string) (st : State) :
  plugin_new_path host st fname (plugin_new host fname st).
Proof.
  destruct fname as [fname|];
    [|rewrite plugin_new_null; apply path_null; reflexivity].
  destruct (g_module_supported host) eqn:Hs;
    [|rewrite plugin_new_unsupported by assumption;
      eapply path_unsupported; [reflexivity | assumption]].
  destruct (g_module_open host fname) as [m|] eqn:Ho;
    [|rewrite plugin_new_open_failed by assumption;
      eapply path_open_failed; [reflexivity | assumption..]].
  destruct (plugin_loaded_items (g_module_name m) (plugin_list st)) eqn:Hl;
    [erewrite plugin_new_already_loaded by eassumption;
     eapply path_already_loaded; [reflexivity | assumption..]|].
  destruct (version_ok host m) eqn:Hv;
    [|erewrite plugin_new_incompatible by eassumption;
      eapply path_incompatible; [reflexivity | assumption..]].
  destruct (sym_info m) as [i|] eqn:Hi.
  - erewrite plugin_new_loaded by eassumption.
    eapply path_loaded; [reflexivity | assumption..].
  - erewrite plugin_new_missing_info by eassumption.
    eapply path_missing_info; [reflexivity | assumption..].
Qed.

End PluginNew.

(** Case analysis on the path [plugin_new] takes in the goal. *)
Ltac plugin_new_paths host path state :=
  let P := fresh "P" in
  let r := fresh "r" in
  let Er := fresh "Er" in
  pose proof (plugin_new_inv host path state) as P;
  remember (plugin_new host path state) as r eqn:Er in *;
  clear Er;
  destruct P as [ ?Hf | ?f ?Hf ?Hs | ?f ?Hf ?Hs ?Ho | ?f ?m ?Hf ?Hs ?Ho ?Hl
                | ?f ?m ?Hf ?Hs ?Ho ?Hl ?Hv | ?f ?m ?Hf ?Hs ?Ho ?Hl ?Hv ?Hi
                | ?f ?m ?i ?Hf ?Hs ?Ho ?Hl ?Hv ?Hi ];
  try discriminate;
  try (match goal with E : Some _ = Some _ |- _ => injection E as <- end).

(** ** [load_one] and the live set *)

Section LoadOne.

Variable host : Host.

Lemma plugin_new_state (fname : option string) (st : State) :
  state_of (plugin_new host fname st) = st.
Proof. plugin_new_paths host fname st; reflexivity. Qed.

Lemma load_one_run (fname : string) (st : State) :
  load_one host fname st =
  (tt,
   match result_of (plugin_new host (Some fname) st) with
   | Some p => append_record st p
   | None => st
   end,
   events_of (plugin_new host (Some fname) st)).
Proof.
  unfold load_one. rewrite run_bind, plugin_new_state.
  destruct (result_of (plugin_new host (Some fname) st)) as [p|];
    unfold result_of, state_of, events_of, append_record, bind, get, put, ret;
    simpl; rewrite app_nil_r; reflexivity.
Qed.

Lemma load_one_plugin_list (fname : string) (st : State) :
  plugin_list (state_of (load_one host fname st)) =
  plugin_list st ++
  match result_of (plugin_new host (Some fname) st) with
  | Some p => [p]
  | None => []
  end.
Proof.
  rewrite load_one_run. unfold state_of; simpl.
  destruct (result_of _); simpl; [reflexivity | rewrite app_nil_r; reflexivity].
Qed.

Lemma load_one_events (fname : string) (st : State) :
  events_of (load_one host fname st) = events_of (plugin_new host (Some fname) st).
Proof. rewrite load_one_run. reflexivity. Qed.

Lemma plugin_loaded_items_true (n : string) (l : list Plugin) :
  plugin_loaded_items n l = true <-> In n (live_identities l).
Proof.
  induction l as [|p l IH]; simpl; [split; [discriminate | tauto]|].
  destruct (module p) as [pm|]; [|exact IH].
  unfold utils_str_equal. destruct (String.eqb_spec n (g_module_name pm)) as [E|E].
  - split; [intros _; left; symmetry; exact E | reflexivity].
  - rewrite IH. simpl. split; [tauto | intros [H|H]; [congruence | exact H]].
Qed.

Lemma plugin_loaded_items_false (n : string) (l : list Plugin) :
  plugin_loaded_items n l = false <-> ~ In n (live_identities l).
Proof.
  rewrite <- plugin_loaded_items_true.
  destruct (plugin_loaded_items n l); split; congruence.
Qed.

Lemma load_one_unique (fname : string) (st : State) :
  NoDup (live_identities (plugin_list st)) ->
  NoDup (live_identities (plugin_list (state_of (load_one host fname st)))).
Proof.
  intro Hnd. rewrite load_one_plugin_list, live_identities_app.
  plugin_new_paths host (Some fname) st; unfold result_of; simpl;
    try (rewrite app_nil_r; exact Hnd).
  apply NoDup_app; [exact Hnd | repeat constructor; simpl; tauto |].
  intros x Hx [Hy|[]]. subst x.
  apply plugin_loaded_items_false in Hl. contradiction.
Qed.

Lemma load_one_has_module (fname : string) (st : State) :
  Forall (fun p => module p <> None) (plugin_list st) ->
  Forall (fun p => module p <> None) (plugin_list (state_of (load_one host fname st))).
Proof.
  intro Hall. rewrite load_one_plugin_list. apply Forall_app; split; [exact Hall|].
  plugin_new_paths host (Some fname) st; unfold result_of; simpl;
    constructor; simpl; [discriminate | constructor].
Qed.

Lemma loads_unique (fnames : list string) (st : State) :
  NoDup (live_identities (plugin_list st)) ->
  NoDup (live_identities (plugin_list (state_of (for_each fnames (load_one host) st)))).
Proof.
  revert st; induction fnames as [|f fnames IH]; intros st Hnd; [exact Hnd|].
  rewrite for_each_cons. unfold state_of at 1; simpl.
  apply IH, load_one_unique, Hnd.
Qed.

Lemma loads_have_module (fnames : list string) (st : State) :
  Forall (fun p => module p <> None) (plugin_list st) ->
  Forall (fun p => module p <> None)
    (plugin_list (state_of (for_each fnames (load_one host) st))).
Proof.
  revert st; induction fnames as [|f fnames IH]; intros st Hall; [exact Hall|].
  rewrite for_each_cons. unfold state_of at 1; simpl.
  apply IH, load_one_has_module, Hall.
Qed.

Lemma after_loads_eq (fnames : list string) :
  after_loads host fnames =
  state_of (for_each fnames (load_one host)
              (state_of (init_function_pointers initial_state))).
Proof.
  unfold after_loads, run_loads. rewrite run_bind. reflexivity.
Qed.

Lemma after_loads_unique (fnames : list string) :
  NoDup (live_identities (plugin_list (after_loads host fnames))).
Proof. rewrite after_loads_eq. apply loads_unique. constructor. Qed.

Lemma after_loads_have_module (fnames : list string) :
  Forall (fun p => module p <> None) (plugin_list (after_loads host fnames)).
Proof. rewrite after_loads_eq. apply loads_have_module. constructor. Qed.

End LoadOne.

(** ** Duplicate detection *)

Lemma unique_identity_count (l : list string) (n : string) :
  NoDup l -> In n l -> count_occ string_dec l n = 1.
Proof.
  intros Hnd Hin.
  pose proof (proj1 (NoDup_count_occ string_dec l) Hnd n) as Hle.
  pose proof (proj1 (count_occ_In string_dec l n) Hin) as Hgt.
  lia.
Qed.

(** C1: after any sequence of [load_one] calls every live record has a
    module and the live records have pairwise distinct canonical identities
    ([g_module_name], not the path); and a [load_one] on a path whose module
    has the identity of a live record returns no record, reports
    [AlreadyLoaded], closes the handle it has just opened, once, and leaves
    the live set as it was, with exactly one record of that identity. *)
Theorem load_one_rejects_duplicate_identity (host : Host) (fnames : list string) :
  let st := after_loads host fnames in
  Forall (fun p => module p <> None) (plugin_list st) /\
  NoDup (live_identities (plugin_list st)) /\
  forall (fname : string) (m : GModule),
    g_module_supported host = true ->
    g_module_open host fname = Some m ->
    In (g_module_name m) (live_identities (plugin_list st)) ->
    let r := plugin_new host (Some fname) st in
    let st' := state_of (load_one host fname st) in
    result_of r = None /\
    load_report (events_of r) = [Rejected AlreadyLoaded] /\
    opened_modules (events_of r) = [m] /\
    closed_modules (events_of r) = [m] /\
    plugin_list st' = plugin_list st /\
    NoDup (live_identities (plugin_list st')) /\
    count_occ string_dec (live_identities (plugin_list st')) (g_module_name m) = 1.
Proof.
  intro st. split; [apply after_loads_have_module|].
  split; [apply after_loads_unique|].
  intros fname m Hs Ho Hin r st'.
  assert (Hl : plugin_loaded_items (g_module_name m) (plugin_list st) = true)
    by (apply plugin_loaded_items_true; exact Hin).
  assert (Hr : r = (None, st,
                    EvModuleOpen fname (Some m) :: EvDebug (msg_already_loaded fname) ::
                    close_events host fname m))
    by (apply plugin_new_already_loaded; assumption).
  assert (Hst : plugin_list st' = plugin_list st).
  { unfold st'. rewrite load_one_plugin_list. fold r. rewrite Hr.
    unfold result_of; simpl. apply app_nil_r. }
  rewrite Hr, Hst. unfold result_of, events_of, close_events; simpl.
  repeat split; try (destruct (g_module_close host m); reflexivity).
  - apply after_loads_unique.
  - apply unique_identity_count; [apply after_loads_unique | exact Hin].
Qed.

Lemma load_one_rejects_duplicate_identity_witness :
  let st := after_loads Demo.host [Demo.path_a] in
  let r := plugin_new Demo.host (Some Demo.path_b) st in
  let st' := state_of (load_one Demo.host Demo.path_b st) in
  NoDup (live_identities (plugin_list st)) /\
  g_module_supported Demo.host = true /\
  g_module_open Demo.host Demo.path_b = Some Demo.mod_a /\
  In (g_module_name Demo.mod_a) (live_identities (plugin_list st)) /\
  result_of r = None /\
  load_report (events_of r) = [Rejected AlreadyLoaded] /\
  opened_modules (events_of r) = [Demo.mod_a] /\
  closed_modules (events_of r) = [Demo.mod_a] /\
  plugin_list st' = plugin_list st /\
  NoDup (live_identities (plugin_list st')) /\
  count_occ string_dec (live_identities (plugin_list st')) (g_module_name Demo.mod_a) = 1.
Proof.
  intros st r st'.
  destruct (load_one_rejects_duplicate_identity Demo.host [Demo.path_a])
    as (_ & Hnd & Hdup).
  split; [exact Hnd|].
  split; [reflexivity|].
  split; [reflexivity|].
  split; [simpl; left; reflexivity|].
  apply (Hdup Demo.path_b Demo.mod_a);
    [reflexivity | reflexivity | simpl; left; reflexivity].
Defined.

(** ** What each block of events contains *)

Section Blocks.

Variable host : Host.

Lemma close_events_closed (fname : string) (m : GModule) :
  closed_modules (close_events host fname m) = [m].
Proof. unfold close_events. destruct (g_module_close host m); reflexivity. Qed.

Lemma close_events_opened (fname : string) (m : GModule) :
  opened_modules (close_events host fname m) = [].
Proof. unfold close_events. destruct (g_module_close host m); reflexivity. Qed.

Lemma close_events_init (fname : string) (m : GModule) :
  init_calls (close_events host fname m) = [].
Proof. unfold close_events. destruct (g_module_close host m); reflexivity. Qed.

Lemma close_events_report (fname : string) (m : GModule) :
  load_report (close_events host fname m) = [].
Proof. unfold close_events. destruct (g_module_close host m); reflexivity. Qed.

Lemma close_events_attempts (fname : string) (m : GModule) :
  open_attempts (close_events host fname m) = [].
Proof. unfold close_events. destruct (g_module_close host m); reflexivity. Qed.

Lemma close_events_loaded (fname : string) (m : GModule) :
  loaded_files (close_events host fname m) = [].
Proof. unfold close_events. destruct (g_module_close host m); reflexivity. Qed.

Ltac version_block m :=
  unfold version_events; destruct (sym_version_check m) as [vc|];
  [simpl; destruct (vc (abi_version host)); reflexivity | reflexivity].

Lemma version_events_closed (m : GModule) :
  closed_modules (version_events host m) = [].
Proof. version_block m. Qed.

Lemma version_events_opened (m : GModule) :
  opened_modules (version_events host m) = [].
Proof. version_block m. Qed.

Lemma version_events_init (m : GModule) :
  init_calls (version_events host m) = [].
Proof. version_block m. Qed.

Lemma version_events_attempts (m : GModule) :
  open_attempts (version_events host m) = [].
Proof. version_block m. Qed.

Lemma version_events_loaded (m : GModule) :
  loaded_files (version_events host m) = [].
Proof. version_block m. Qed.

Lemma version_events_complaints (m : GModule) :
  complaints (version_events host m) = [].
Proof. version_block m. Qed.

Lemma version_events_report_ok (m : GModule) :
  version_ok host m = true -> load_report (version_events host m) = [].
Proof.
  unfold version_ok, version_events.
  destruct (sym_version_check m) as [vc|]; [|reflexivity].
  simpl. destruct (vc (abi_version host)); simpl; [reflexivity | discriminate..].
Qed.

Lemma version_events_report_bad (m : GModule) :
  version_ok host m = false ->
  exists version_check,
    sym_version_check m = Some version_check /\
    version_check (abi_version host) <> 0%Z /\
    load_report (version_events host m) =
    [Rejected (if (version_check (abi_version host) <? 0)%Z then TooOld
               else RequiresNewerHost (version_check (abi_version host)))].
Proof.
  unfold version_ok, version_events.
  destruct (sym_version_check m) as [vc|]; [|discriminate].
  intro Hv. exists vc. split; [reflexivity|].
  simpl. destruct (vc (abi_version host)); simpl;
    [discriminate | split; [discriminate | reflexivity]..].
Qed.

Lemma init_events_closed (fname : string) (m : GModule) (i : PluginInfo) :
  closed_modules (init_events host fname m i) = [].
Proof. unfold init_events. destruct (sym_init m); reflexivity. Qed.

Lemma init_events_opened (fname : string) (m : GModule) (i : PluginInfo) :
  opened_modules (init_events host fname m i) = [].
Proof. unfold init_events. destruct (sym_init m); reflexivity. Qed.

Lemma init_events_attempts (fname : string) (m : GModule) (i : PluginInfo) :
  open_attempts (init_events host fname m i) = [].
Proof. unfold init_events. destruct (sym_init m); reflexivity. Qed.

Lemma init_events_report (fname : string) (m : GModule) (i : PluginInfo) :
  load_report (init_events host fname m i) = [Loaded].
Proof. unfold init_events. destruct (sym_init m); reflexivity. Qed.

Lemma init_events_loaded (fname : string) (m : GModule) (i : PluginInfo) :
  loaded_files (init_events host fname m i) = [fname].
Proof. unfold init_events. destruct (sym_init m); reflexivity. Qed.

Lemma init_events_complaints (fname : string) (m : GModule) (i : PluginInfo) :
  complaints (init_events host fname m i) = [].
Proof. unfold init_events. destruct (sym_init m); reflexivity. Qed.

Lemma init_events_init (fname : string) (m : GModule) (i : PluginInfo) :
  init_calls (init_events host fname m i) =
  match sym_init m with Some f => [f] | None => [] end.
Proof. unfold init_events. destruct (sym_init m); reflexivity. Qed.

End Blocks.

Create Rewrite HintDb trace.
#[export] Hint Rewrite closed_modules_app opened_modules_app open_attempts_app
  init_calls_app cleanup_calls_app complaints_app loaded_files_app
  freed_records_app load_report_app close_events_closed close_events_opened close_events_init
  close_events_report close_events_attempts close_events_loaded
  version_events_closed version_events_opened version_events_init
  version_events_attempts version_events_loaded version_events_complaints
  init_events_closed init_events_opened init_events_attempts
  init_events_report init_events_loaded init_events_complaints
  init_events_init app_nil_r : trace.

Ltac read_trace :=
  unfold result_of, state_of, events_of; cbn [fst snd];
  repeat (cbn [closed_modules opened_modules open_attempts init_calls
               cleanup_calls complaints loaded_files freed_records load_report
               outcome_of_event app];
          autorewrite with trace).

(** ** Rejections of [plugin_new] *)

Section Rejections.

Variable host : Host.

Lemma load_one_keeps_list_on_rejection (fname : string) (st : State) :
  result_of (plugin_new host (Some fname) st) = None ->
  plugin_list (state_of (load_one host fname st)) = plugin_list st.
Proof. intro H. rewrite load_one_plugin_list, H. apply app_nil_r. Qed.

(** Every rejection that follows a successful open gives the handle back. *)
Lemma rejection_releases (fname : string) (m : GModule) (st : State) :
  g_module_supported host = true ->
  g_module_open host fname = Some m ->
  result_of (plugin_new host (Some fname) st) = None ->
  rejected_and_released host st fname m /\
  exists reason,
    load_report (events_of (plugin_new host (Some fname) st)) = [Rejected reason] /\
    reason <> OpenFailed /\ reason <> GuardFailed.
Proof.
  intros Hs Ho Hnone. unfold rejected_and_released.
  pose proof (load_one_keeps_list_on_rejection fname st Hnone) as Hkeep.
  revert Hnone Hkeep. plugin_new_paths host (Some fname) st; intros Hnone Hkeep;
    try congruence;
    try (unfold result_of in Hnone; simpl in Hnone; discriminate);
    assert (m0 = m) by congruence; subst m0.
  - read_trace. repeat split; auto. exists AlreadyLoaded.
    repeat split; discriminate.
  - destruct (version_events_report_bad host m Hv) as (vc & Hvc & Hnz & Hrep).
    read_trace. rewrite Hrep. repeat split; auto.
    eexists; split; [reflexivity|].
    destruct (vc (abi_version host) <? 0)%Z; split; discriminate.
  - read_trace. rewrite version_events_report_ok by assumption.
    repeat split; auto. exists MissingInfo. repeat split; discriminate.
Qed.

End Rejections.

(** ** The version gate *)

(** C3: when [version_check] resolves and returns a negative value the load
    is rejected as [TooOld]; when it returns a positive value [N] it is
    rejected as [RequiresNewerHost N]; either way the handle is closed, the
    module does not enter the live set and its [init] is not called.  When it
    returns 0, or the symbol is absent, [plugin_check_version] lets the
    module through, and a module that then has [info] is loaded.  (The
    rejection is unconditional; its reason is the version one whenever the
    duplicate check, which comes first, did not already reject.) *)
Theorem version_gate (host : Host) (st : State) (fname : string) (m : GModule) :
  g_module_supported host = true ->
  g_module_open host fname = Some m ->
  (forall version_check,
     sym_version_check m = Some version_check ->
     (version_check (abi_version host) < 0)%Z ->
     rejected_and_released host st fname m /\
     (plugin_loaded_items (g_module_name m) (plugin_list st) = false ->
      load_report (events_of (plugin_new host (Some fname) st)) =
      [Rejected TooOld])) /\
  (forall version_check,
     sym_version_check m = Some version_check ->
     (0 < version_check (abi_version host))%Z ->
     rejected_and_released host st fname m /\
     (plugin_loaded_items (g_module_name m) (plugin_list st) = false ->
      load_report (events_of (plugin_new host (Some fname) st)) =
      [Rejected (RequiresNewerHost (version_check (abi_version host)))])) /\
  (sym_version_check m = None \/
   (exists version_check,
      sym_version_check m = Some version_check /\
      version_check (abi_version host) = 0%Z) ->
   result_of (plugin_check_version host m st) = true /\
   load_report (events_of (plugin_check_version host m st)) = [] /\
   forall i,
     plugin_loaded_items (g_module_name m) (plugin_list st) = false ->
     sym_info m = Some i ->
     result_of (plugin_new host (Some fname) st) = Some (new_record host fname m i)).
Proof.
  intros Hs Ho.
  assert (Hbad : version_ok host m = false ->
                 rejected_and_released host st fname m).
  { intro Hv. apply rejection_releases; auto.
    destruct (plugin_loaded_items (g_module_name m) (plugin_list st)) eqn:Hl.
    - rewrite (plugin_new_already_loaded host fname m st) by assumption. reflexivity.
    - rewrite (plugin_new_incompatible host fname m st) by assumption. reflexivity. }
  split; [|split].
  - intros vc Hvc Hneg.
    assert (Hv : version_ok host m = false).
    { unfold version_ok. rewrite Hvc. apply Z.eqb_neq. lia. }
    split; [auto|]. intro Hl.
    rewrite (plugin_new_incompatible host fname m st) by assumption.
    read_trace. unfold version_events. rewrite Hvc. simpl.
    destruct (Z.ltb_spec (vc (abi_version host)) 0); [reflexivity | lia].
  - intros vc Hvc Hpos.
    assert (Hv : version_ok host m = false).
    { unfold version_ok. rewrite Hvc. apply Z.eqb_neq. lia. }
    split; [auto|]. intro Hl.
    rewrite (plugin_new_incompatible host fname m st) by assumption.
    read_trace. unfold version_events. rewrite Hvc. simpl.
    destruct (Z.ltb_spec (vc (abi_version host)) 0); [lia|].
    destruct (Z.gtb_spec (vc (abi_version host)) 0); [reflexivity | lia].
  - intro Hzero.
    assert (Hv : version_ok host m = true).
    { unfold version_ok. destruct Hzero as [Hn | (vc & Hvc & Hz)].
      - rewrite Hn. reflexivity.
      - rewrite Hvc, Hz. reflexivity. }
    rewrite plugin_check_version_run. read_trace.
    split; [exact Hv|]. split; [apply version_events_report_ok; exact Hv|].
    intros i Hl Hi.
    rewrite (plugin_new_loaded host fname m i st) by assumption. reflexivity.
Qed.

Lemma version_gate_witness :
  (rejected_and_released Demo.host initial_state Demo.path_d Demo.mod_d /\
   load_report (events_of (plugin_new Demo.host (Some Demo.path_d) initial_state)) =
   [Rejected TooOld]) /\
  (rejected_and_released Demo.host initial_state Demo.path_c Demo.mod_c /\
   load_report (events_of (plugin_new Demo.host (Some Demo.path_c) initial_state)) =
   [Rejected (RequiresNewerHost 1)]) /\
  result_of (plugin_check_version Demo.host Demo.mod_a initial_state) = true /\
  result_of (plugin_check_version Demo.host Demo.mod_g initial_state) = true.
Proof.
  destruct (version_gate Demo.host initial_state Demo.path_d Demo.mod_d
              eq_refl eq_refl) as (Hold & _ & _).
  destruct (version_gate Demo.host initial_state Demo.path_c Demo.mod_c
              eq_refl eq_refl) as (_ & Hnew & _).
  destruct (version_gate Demo.host initial_state Demo.path_a Demo.mod_a
              eq_refl eq_refl) as (_ & _ & Hzero).
  destruct (version_gate Demo.host initial_state Demo.path_g Demo.mod_g
              eq_refl eq_refl) as (_ & _ & Habsent).
  split; [|split; [|split]].
  - destruct (Hold (fun abi => (abi - 20)%Z) eq_refl) as [H1 H2];
      [vm_compute; reflexivity|].
    split; [exact H1 | apply H2; reflexivity].
  - destruct (Hnew (fun _ => 1%Z) eq_refl) as [H1 H2];
      [vm_compute; reflexivity|].
    split; [exact H1 | apply H2; reflexivity].
  - apply Hzero. right. exists (fun _ => 0%Z). split; reflexivity.
  - apply Habsent. left. reflexivity.
Defined.

(** ** Handles on the failure paths *)

(** C4: a [load_one] that is rejected after its module was opened
    ([AlreadyLoaded], a version mismatch or a missing [info]) closes exactly
    the handle it opened, exactly once; when the open itself fails no handle
    was obtained and none is closed; so on every failure the handles closed
    are the handles opened.  Only the successful load keeps its handle, in
    the record it returns. *)
Theorem failure_paths_release_handle (host : Host) (st : State) (fname : string) :
  g_module_supported host = true ->
  (forall m,
     g_module_open host fname = Some m ->
     result_of (plugin_new host (Some fname) st) = None ->
     opened_modules (events_of (plugin_new host (Some fname) st)) = [m] /\
     closed_modules (events_of (plugin_new host (Some fname) st)) = [m] /\
     exists reason,
       load_report (events_of (plugin_new host (Some fname) st)) = [Rejected reason] /\
       reason <> OpenFailed /\ reason <> GuardFailed) /\
  (g_module_open host fname = None ->
   result_of (plugin_new host (Some fname) st) = None /\
   load_report (events_of (plugin_new host (Some fname) st)) = [Rejected OpenFailed] /\
   opened_modules (events_of (plugin_new host (Some fname) st)) = [] /\
   closed_modules (events_of (plugin_new host (Some fname) st)) = []) /\
  (result_of (plugin_new host (Some fname) st) = None ->
   closed_modules (events_of (plugin_new host (Some fname) st)) =
   opened_modules (events_of (plugin_new host (Some fname) st))) /\
  (forall p,
     result_of (plugin_new host (Some fname) st) = Some p ->
     exists m,
       g_module_open host fname = Some m /\
       module p = Some m /\
       opened_modules (events_of (plugin_new host (Some fname) st)) = [m] /\
       closed_modules (events_of (plugin_new host (Some fname) st)) = []).
Proof.
  intro Hs.
  assert (Hfail : g_module_open host fname = None ->
                  plugin_new host (Some fname) st =
                  (None, st, [EvModuleOpen fname None; EvWarning msg_module_error]))
    by (intro Ho; apply plugin_new_open_failed; assumption).
  split; [|split; [|split]].
  - intros m Ho Hnone.
    destruct (rejection_releases host fname m st Hs Ho Hnone)
      as ((_ & Hopen & Hclose & _) & Hreason).
    auto.
  - intro Ho. rewrite (Hfail Ho). repeat split.
  - intro Hnone. destruct (g_module_open host fname) as [m|] eqn:Ho.
    + destruct (rejection_releases host fname m st Hs Ho Hnone)
        as ((_ & Hopen & Hclose & _) & _).
      congruence.
    + rewrite (Hfail eq_refl). reflexivity.
  - intros p. plugin_new_paths host (Some fname) st;
      unfold result_of; simpl; intro Hp; try discriminate.
    injection Hp as <-. exists m. read_trace. auto.
Qed.

Lemma failure_paths_release_handle_witness :
  (opened_modules (events_of (plugin_new Demo.host (Some Demo.path_e) initial_state))
   = [Demo.mod_e] /\
   closed_modules (events_of (plugin_new Demo.host (Some Demo.path_e) initial_state))
   = [Demo.mod_e]) /\
  (opened_modules (events_of (plugin_new Demo.host (Some Demo.path_f) initial_state))
   = [] /\
   closed_modules (events_of (plugin_new Demo.host (Some Demo.path_f) initial_state))
   = []).
Proof.
  destruct (failure_paths_release_handle Demo.host initial_state Demo.path_e eq_refl)
    as (Hrej & _).
  destruct (failure_paths_release_handle Demo.host initial_state Demo.path_f eq_refl)
    as (_ & Hfail & _).
  split.
  - destruct (Hrej Demo.mod_e eq_refl eq_refl) as (H1 & H2 & _). split; assumption.
  - destruct (Hfail eq_refl) as (_ & _ & H1 & H2). split; assumption.
Defined.

(** ** The mandatory [info] symbol *)

(** C7: an opened module that passes the duplicate check and the version
    check but does not export [info] is rejected as [MissingInfo]: no record
    is returned, the handle is closed, the live set is unchanged and [init]
    is not called. *)
Theorem missing_info_is_rejected (host : Host) (st : State) (fname : string)
  (m : GModule) :
  g_module_supported host = true ->
  g_module_open host fname = Some m ->
  plugin_loaded_items (g_module_name m) (plugin_list st) = false ->
  result_of (plugin_check_version host m st) = true ->
  sym_info m = None ->
  rejected_and_released host st fname m /\
  load_report (events_of (plugin_new host (Some fname) st)) = [Rejected MissingInfo].
Proof.
  intros Hs Ho Hl Hv Hi. rewrite plugin_check_version_run in Hv.
  unfold result_of in Hv; simpl in Hv.
  pose proof (plugin_new_missing_info host fname m st Hs Ho Hl Hv Hi) as Hrun.
  split.
  - apply rejection_releases; auto. rewrite Hrun. reflexivity.
  - rewrite Hrun. read_trace. rewrite version_events_report_ok by assumption.
    reflexivity.
Qed.

Lemma missing_info_is_rejected_witness :
  rejected_and_released Demo.host (after_loads Demo.host [Demo.path_a])
    Demo.path_e Demo.mod_e /\
  load_report (events_of (plugin_new Demo.host (Some Demo.path_e)
                            (after_loads Demo.host [Demo.path_a])))
  = [Rejected MissingInfo].
Proof.
  apply (missing_info_is_rejected Demo.host (after_loads Demo.host [Demo.path_a])
           Demo.path_e Demo.mod_e); reflexivity.
Defined.

(** ** The guards of [plugin_new] *)

(** C10: [plugin_new] called with a null path, or on a platform where
    [g_module_supported()] is false, returns [NULL] at once: it logs the
    failed guard and nothing else, so no module is opened, and neither it nor
    the [load_one] around it changes the static state. *)
Theorem guards_reject_without_opening (host : Host) (st : State)
  (fname : option string) :
  fname = None \/ g_module_supported host = false ->
  result_of (plugin_new host fname st) = None /\
  state_of (plugin_new host fname st) = st /\
  open_attempts (events_of (plugin_new host fname st)) = [] /\
  load_report (events_of (plugin_new host fname st)) = [Rejected GuardFailed] /\
  (exists expr, events_of (plugin_new host fname st) =
                [EvCritical (msg_assertion_failed expr)]) /\
  forall f, fname = Some f -> state_of (load_one host f st) = st.
Proof.
  intros [Hn | Hu].
  - subst fname. rewrite plugin_new_null. repeat split.
    + eexists; reflexivity.
    + discriminate.
  - destruct fname as [f|].
    + rewrite (plugin_new_unsupported host f st Hu). repeat split.
      * eexists; reflexivity.
      * intros f' Hf. injection Hf as <-. rewrite load_one_run.
        rewrite (plugin_new_unsupported host f st Hu). reflexivity.
    + rewrite plugin_new_null. repeat split.
      * eexists; reflexivity.
      * discriminate.
Qed.

Lemma guards_reject_without_opening_witness :
  (result_of (plugin_new Demo.host None initial_state) = None /\
   open_attempts (events_of (plugin_new Demo.host None initial_state)) = []) /\
  (result_of (plugin_new Demo.host_without_modules (Some Demo.path_a) initial_state)
   = None /\
   open_attempts
     (events_of (plugin_new Demo.host_without_modules (Some Demo.path_a) initial_state))
   = [] /\
   state_of (load_one Demo.host_without_modules Demo.path_a initial_state)
   = initial_state).
Proof.
  destruct (guards_reject_without_opening Demo.host initial_state None
              (or_introl eq_refl)) as (H1 & _ & H2 & _).
  destruct (guards_reject_without_opening Demo.host_without_modules initial_state
              (Some Demo.path_a) (or_intror eq_refl)) as (H3 & _ & H4 & _ & _ & H5).
  split; [split; assumption|].
  split; [assumption|]. split; [assumption|]. apply H5. reflexivity.
Defined.

(** ** Unloading *)

Section Unload.

Variable host : Host.

Lemma plugin_free_run (p : Plugin) (st : State) :
  plugin_free host (Some p) st = (tt, st, unload_events host p).
Proof.
  unfold plugin_free, unload_events. destruct (module p) as [m|]; [|reflexivity].
  unfold cleanup_events, release_events, module_close, g_warning, geany_debug,
    bind, ret, emit.
  destruct (cleanup p); simpl; destruct (g_module_close host m); reflexivity.
Qed.

Lemma g_list_foreach_free_run (l : list Plugin) (st : State) :
  g_list_foreach l (plugin_free host) st =
  (tt, st, flat_map (unload_events host) l).
Proof.
  unfold g_list_foreach. induction l as [|p l IH]; [reflexivity|].
  rewrite for_each_cons, plugin_free_run.
  change (state_of (tt, st, unload_events host p)) with st.
  rewrite IH. reflexivity.
Qed.

Lemma plugins_free_run (st : State) :
  plugins_free host st =
  (tt, st,
   match plugin_list st with
   | [] => []
   | _ :: _ => flat_map (unload_events host) (plugin_list st) ++
               [EvListFree (plugin_list st)]
   end).
Proof.
  unfold plugins_free, bind, get. simpl.
  destruct (plugin_list st) as [|p l] eqn:E; [reflexivity|].
  rewrite g_list_foreach_free_run. reflexivity.
Qed.

Lemma plugins_free_events (st : State) :
  events_of (plugins_free host st) =
  match plugin_list st with
  | [] => []
  | _ :: _ => flat_map (unload_events host) (plugin_list st) ++
              [EvListFree (plugin_list st)]
  end.
Proof. rewrite plugins_free_run. reflexivity. Qed.

Lemma unload_events_closed (l : list Plugin) :
  map Some (closed_modules (flat_map (unload_events host) l)) =
  filter (fun o => match o with Some _ => true | None => false end) (map module l).
Proof.
  induction l as [|p l IH]; [reflexivity|].
  simpl. rewrite closed_modules_app, map_app, IH.
  unfold unload_events, cleanup_events, release_events.
  destruct (module p) as [m|]; [|reflexivity].
  destruct (cleanup p); destruct (g_module_close host m); reflexivity.
Qed.

Lemma unload_events_cleanup (l : list Plugin) :
  Forall (fun p => module p <> None) l ->
  cleanup_calls (flat_map (unload_events host) l) = cleanup_entries l.
Proof.
  induction 1 as [|p l Hp Hl IH]; [reflexivity|].
  simpl. rewrite cleanup_calls_app, IH.
  unfold unload_events, cleanup_events, release_events.
  destruct (module p) as [m|]; [|congruence].
  destruct (cleanup p); destruct (g_module_close host m); reflexivity.
Qed.

Lemma unload_events_freed (l : list Plugin) :
  Forall (fun p => module p <> None) l ->
  freed_records (flat_map (unload_events host) l) = l.
Proof.
  induction 1 as [|p l Hp Hl IH]; [reflexivity|].
  simpl. rewrite freed_records_app, IH.
  unfold unload_events, cleanup_events, release_events.
  destruct (module p) as [m|]; [|congruence].
  destruct (cleanup p); destruct (g_module_close host m); reflexivity.
Qed.

Lemma filter_all_some {A} (l : list (option A)) :
  Forall (fun o => o <> None) l ->
  filter (fun o => match o with Some _ => true | None => false end) l = l.
Proof.
  induction 1 as [|o l Ho Hl IH]; [reflexivity|].
  simpl. destruct o; [rewrite IH; reflexivity | congruence].
Qed.

(** Records the manager has put in the live set keep the entry points of
    their module. *)
Lemma loads_record_shape (fnames : list string) (st : State) :
  Forall (fun p => exists m, module p = Some m /\ cleanup p = sym_cleanup m /\
                             init p = sym_init m) (plugin_list st) ->
  Forall (fun p => exists m, module p = Some m /\ cleanup p = sym_cleanup m /\
                             init p = sym_init m)
    (plugin_list (state_of (for_each fnames (load_one host) st))).
Proof.
  revert st; induction fnames as [|f fnames IH]; intros st Hall; [exact Hall|].
  rewrite for_each_cons. unfold state_of at 1; simpl. apply IH.
  rewrite load_one_plugin_list. apply Forall_app; split; [exact Hall|].
  plugin_new_paths host (Some f) st; unfold result_of; simpl; constructor;
    [|constructor].
  exists m. repeat split.
Qed.

Lemma after_loads_record_shape (fnames : list string) :
  Forall (fun p => exists m, module p = Some m /\ cleanup p = sym_cleanup m /\
                             init p = sym_init m)
    (plugin_list (after_loads host fnames)).
Proof. rewrite after_loads_eq. apply loads_record_shape. constructor. Qed.

End Unload.

Section UnloadOrder.

Variable host : Host.

Lemma closed_modules_are_live (l : list Plugin) (m : GModule) :
  In m (closed_modules (flat_map (unload_events host) l)) ->
  In (g_module_name m) (live_identities l).
Proof.
  induction l as [|p l IH]; simpl; [tauto|].
  rewrite closed_modules_app, in_app_iff.
  unfold unload_events, cleanup_events, release_events.
  destruct (module p) as [pm|]; simpl.
  - intros [H|H]; [|right; apply IH; exact H].
    left. destruct (cleanup p); destruct (g_module_close host pm);
      simpl in H; destruct H as [H|[]]; subst; reflexivity.
  - intros [[]|H]. apply IH; exact H.
Qed.

Lemma loads_filenames (fnames : list string) (st : State) :
  map filename (plugin_list (state_of (for_each fnames (load_one host) st))) =
  map filename (plugin_list st) ++
  map Some (loaded_files (events_of (for_each fnames (load_one host) st))).
Proof.
  revert st; induction fnames as [|f fnames IH]; intro st.
  - simpl. rewrite app_nil_r. reflexivity.
  - rewrite for_each_cons.
    change (state_of (tt, ?s, ?e)) with s. change (events_of (tt, ?s, ?e)) with e.
    rewrite IH, loaded_files_app, map_app, app_assoc. f_equal.
    rewrite load_one_plugin_list, load_one_events, map_app. f_equal.
    plugin_new_paths host (Some f) st; read_trace; reflexivity.
Qed.

Lemma run_loads_events (fnames : list string) :
  events_of (run_loads host fnames) =
  events_of (for_each fnames (load_one host)
               (state_of (init_function_pointers initial_state))).
Proof. unfold run_loads. rewrite run_bind. reflexivity. Qed.

End UnloadOrder.

(** ** Cleanup before release *)

(** C2: take any record of the live set, at any position.  [plugins_free]
    first processes the records in front of it, whatever they log; then, for
    this record, the call of its [cleanup] entry point (if it has one) is
    immediately followed by the [g_module_close] of its module, and that
    module is closed neither earlier nor again later.  This holds whatever
    [g_module_close] answers for any module. *)
Theorem cleanup_precedes_release (host : Host) (fnames : list string)
  (before after : list Plugin) (p : Plugin) :
  let st := after_loads host fnames in
  plugin_list st = before ++ p :: after ->
  exists m,
    module p = Some m /\
    cleanup p = sym_cleanup m /\
    events_of (plugins_free host st) =
      events_of (g_list_foreach before (plugin_free host) st) ++
      cleanup_events p ++
      EvModuleClose m (g_module_close host m) ::
      (if g_module_close host m then EvDebug (msg_unloaded (filename p))
       else EvWarning (msg_close_error (filename p))) ::
      EvFreePlugin p ::
      events_of (g_list_foreach after (plugin_free host) st) ++
      [EvListFree (plugin_list st)] /\
    ~ In m (closed_modules (events_of (g_list_foreach before (plugin_free host) st))) /\
    ~ In m (closed_modules (events_of (g_list_foreach after (plugin_free host) st))).
Proof.
  intros st Hlist.
  pose proof (after_loads_record_shape host fnames) as Hshape.
  pose proof (after_loads_unique host fnames) as Hnd.
  fold st in Hshape, Hnd. rewrite Hlist in Hshape, Hnd.
  apply Forall_app in Hshape. destruct Hshape as [_ Hshape].
  inversion Hshape as [|p' l' (m & Hm & Hc & _) _]; subst.
  exists m. split; [exact Hm|]. split; [exact Hc|].
  rewrite plugins_free_events, !g_list_foreach_free_run, Hlist.
  change (events_of (tt, st, ?e)) with e.
  rewrite live_identities_app in Hnd. simpl in Hnd. rewrite Hm in Hnd.
  split; [|split].
  - destruct (before ++ p :: after) as [|q l] eqn:E;
      [destruct before; discriminate|].
    rewrite <- E, flat_map_app. cbn [flat_map].
    unfold unload_events at 2. rewrite Hm. unfold release_events.
    rewrite <- !app_assoc. reflexivity.
  - intro Hin. apply closed_modules_are_live in Hin.
    apply NoDup_remove_2 in Hnd. apply Hnd, in_or_app. left; exact Hin.
  - intro Hin. apply closed_modules_are_live in Hin.
    apply NoDup_remove_2 in Hnd. apply Hnd, in_or_app. right; exact Hin.
Qed.

Lemma cleanup_precedes_release_witness :
  let st := after_loads Demo.host [Demo.path_g; Demo.path_a] in
  let pg := new_record Demo.host Demo.path_g Demo.mod_g Demo.info_g in
  let pa := new_record Demo.host Demo.path_a Demo.mod_a Demo.info_a in
  plugin_list st = [pg] ++ pa :: [] /\
  complaints (events_of (g_list_foreach [pg] (plugin_free Demo.host) st)) =
    [msg_close_error (Some Demo.path_g)] /\
  exists m,
    module pa = Some m /\
    cleanup pa = sym_cleanup m /\
    events_of (plugins_free Demo.host st) =
      events_of (g_list_foreach [pg] (plugin_free Demo.host) st) ++
      cleanup_events pa ++
      EvModuleClose m (g_module_close Demo.host m) ::
      (if g_module_close Demo.host m then EvDebug (msg_unloaded (filename pa))
       else EvWarning (msg_close_error (filename pa))) ::
      EvFreePlugin pa ::
      events_of (g_list_foreach [] (plugin_free Demo.host) st) ++
      [EvListFree (plugin_list st)] /\
    ~ In m (closed_modules (events_of (g_list_foreach [pg] (plugin_free Demo.host) st))) /\
    ~ In m (closed_modules (events_of (g_list_foreach [] (plugin_free Demo.host) st))).
Proof.
  intros st pg pa.
  split; [reflexivity|]. split; [reflexivity|].
  apply (cleanup_precedes_release Demo.host [Demo.path_g; Demo.path_a] [pg] [] pa).
  reflexivity.
Defined.

(** ** Modules without [init] and [cleanup] *)

(** C8: a module that exports [info] but neither [init] nor [cleanup], and
    passes the duplicate and version checks, is loaded: [plugin_new] returns
    its record, [load_one] appends it, the report says [Loaded], no [init]
    call is made and nothing is logged at warning or critical level.
    Unloading it makes no [cleanup] call: [plugin_free] closes the module,
    logs the loader's answer and releases the record, and [plugins_free] does
    exactly that after the records in front of it; when the loader closes
    the module, nothing is logged at warning or critical level either. *)
Theorem bare_module_loads_and_unloads (host : Host) (st : State) (fname : string)
  (m : GModule) (i : PluginInfo) :
  g_module_supported host = true ->
  g_module_open host fname = Some m ->
  plugin_loaded_items (g_module_name m) (plugin_list st) = false ->
  result_of (plugin_check_version host m st) = true ->
  sym_info m = Some i ->
  sym_init m = None ->
  sym_cleanup m = None ->
  let p := new_record host fname m i in
  let st' := state_of (load_one host fname st) in
  let close_log :=
    if g_module_close host m then EvDebug (msg_unloaded (Some fname))
    else EvWarning (msg_close_error (Some fname)) in
  result_of (plugin_new host (Some fname) st) = Some p /\
  plugin_list st' = plugin_list st ++ [p] /\
  load_report (events_of (load_one host fname st)) = [Loaded] /\
  init_calls (events_of (load_one host fname st)) = [] /\
  complaints (events_of (load_one host fname st)) = [] /\
  events_of (plugin_free host (Some p) st') =
    [EvModuleClose m (g_module_close host m); close_log; EvFreePlugin p] /\
  events_of (plugins_free host st') =
    events_of (g_list_foreach (plugin_list st) (plugin_free host) st') ++
    [EvModuleClose m (g_module_close host m); close_log; EvFreePlugin p;
     EvListFree (plugin_list st')] /\
  cleanup_calls (events_of (plugin_free host (Some p) st')) = [] /\
  (g_module_close host m = true ->
   complaints (events_of (plugin_free host (Some p) st')) = []).
Proof.
  intros Hs Ho Hl Hv Hi Hinit Hclean p st' close_log.
  rewrite plugin_check_version_run in Hv. unfold result_of in Hv; simpl in Hv.
  pose proof (plugin_new_loaded host fname m i st Hs Ho Hl Hv Hi) as Hrun.
  assert (Hlist : plugin_list st' = plugin_list st ++ [p]).
  { unfold st'. rewrite load_one_plugin_list, Hrun. reflexivity. }
  assert (Hfree : events_of (plugin_free host (Some p) st') =
                  [EvModuleClose m (g_module_close host m); close_log; EvFreePlugin p]).
  { rewrite plugin_free_run. unfold events_of, unload_events, cleanup_events; simpl.
    rewrite Hclean. reflexivity. }
  rewrite load_one_events, Hrun, Hfree.
  split; [reflexivity|]. split; [exact Hlist|].
  read_trace. rewrite version_events_report_ok by assumption.
  rewrite Hinit.
  split; [reflexivity|]. split; [reflexivity|]. split; [reflexivity|].
  split; [reflexivity|]. split; [|split].
  - rewrite plugins_free_run, g_list_foreach_free_run, Hlist.
    destruct (plugin_list st ++ [p]) as [|q l] eqn:E;
      [destruct (plugin_list st); discriminate|].
    rewrite <- E, flat_map_app. simpl.
    unfold unload_events at 2, cleanup_events, release_events. simpl.
    rewrite Hclean, <- app_assoc. reflexivity.
  - unfold close_log. destruct (g_module_close host m); reflexivity.
  - intro Hc. unfold close_log. rewrite Hc. reflexivity.
Qed.

Lemma bare_module_loads_and_unloads_witness :
  let st := after_loads Demo.host [Demo.path_a] in
  let p := new_record Demo.host Demo.path_g Demo.mod_g Demo.info_g in
  let st' := state_of (load_one Demo.host Demo.path_g st) in
  result_of (plugin_new Demo.host (Some Demo.path_g) st) = Some p /\
  plugin_list st' = plugin_list st ++ [p] /\
  load_report (events_of (load_one Demo.host Demo.path_g st)) = [Loaded] /\
  init_calls (events_of (load_one Demo.host Demo.path_g st)) = [] /\
  complaints (events_of (load_one Demo.host Demo.path_g st)) = [] /\
  cleanup_calls (events_of (plugin_free Demo.host (Some p) st')) = [].
Proof.
  intros st p st'.
  destruct (bare_module_loads_and_unloads Demo.host st Demo.path_g Demo.mod_g
              Demo.info_g eq_refl eq_refl eq_refl eq_refl eq_refl eq_refl eq_refl)
    as (H1 & H2 & H3 & H4 & H5 & _ & _ & H6 & _).
  repeat split; assumption.
Defined.

(** ** Unload order *)

(** C9: [load_one] appends at the tail, so the live set lists the records in
    the order their files were reported as loaded; [plugins_free] walks it
    from the front, so modules are closed, cleanup entry points called and
    records released in that same order. *)
Theorem unload_follows_load_order (host : Host) (fnames : list string) :
  let st := after_loads host fnames in
  let unload := events_of (plugins_free host st) in
  (forall f,
     plugin_list (after_loads host (fnames ++ [f])) =
     plugin_list st ++
     match result_of (plugin_new host (Some f) st) with
     | Some p => [p]
     | None => []
     end) /\
  map filename (plugin_list st) =
    map Some (loaded_files (events_of (run_loads host fnames))) /\
  map Some (closed_modules unload) = map module (plugin_list st) /\
  cleanup_calls unload = cleanup_entries (plugin_list st) /\
  freed_records unload = plugin_list st.
Proof.
  intros st unload.
  pose proof (after_loads_have_module host fnames) as Hmod. fold st in Hmod.
  split; [|split; [|split; [|split]]].
  - intro f. unfold st. rewrite !after_loads_eq, for_each_app.
    change (state_of (tt, ?s, ?e)) with s.
    simpl. rewrite run_bind. change (state_of (?a, ?s, ?e)) with s.
    unfold ret; simpl. apply load_one_plugin_list.
  - unfold st. rewrite after_loads_eq, run_loads_events, loads_filenames.
    reflexivity.
  - unfold unload. rewrite plugins_free_events.
    destruct (plugin_list st) as [|q l] eqn:E; [reflexivity|].
    rewrite <- E in *. read_trace. rewrite unload_events_closed.
    apply filter_all_some. apply Forall_map. exact Hmod.
  - unfold unload. rewrite plugins_free_events.
    destruct (plugin_list st) as [|q l] eqn:E; [reflexivity|].
    rewrite <- E in *. read_trace. apply unload_events_cleanup. exact Hmod.
  - unfold unload. rewrite plugins_free_events.
    destruct (plugin_list st) as [|q l] eqn:E; [reflexivity|].
    rewrite <- E in *. read_trace. apply unload_events_freed. exact Hmod.
Qed.

(** ** Scanning the plugin directory *)

Section Scan.

Variable host : Host.

Lemma for_each_map {A B} (g : A -> B) (l : list A) (body : B -> M unit) (st : State) :
  for_each (map g l) body st = for_each l (fun x => body (g x)) st.
Proof.
  revert st; induction l as [|x l IH]; intro st; [reflexivity|].
  cbn [map]. rewrite !for_each_cons, !IH. reflexivity.
Qed.

Lemma plugins_init_run :
  plugins_init host initial_state = run_loads host (candidate_paths host).
Proof.
  unfold plugins_init, run_loads, candidate_paths.
  rewrite !run_bind, for_each_map. reflexivity.
Qed.

Lemma gate_outcome_loaded (fname : string) :
  is_loaded (gate_outcome host fname) = passes_every_gate host fname.
Proof.
  unfold gate_outcome, passes_every_gate, version_ok.
  destruct (g_module_open host fname) as [m|]; [|reflexivity].
  destruct (sym_version_check m) as [vc|]; [|destruct (sym_info m); reflexivity].
  destruct (vc (abi_version host)); simpl; destruct (sym_info m); reflexivity.
Qed.

(** One candidate, one outcome; a record is appended exactly when the
    outcome is [Loaded]. *)
Lemma load_one_report (fname : string) (st : State) :
  exists o,
    load_report (events_of (load_one host fname st)) = [o] /\
    List.length (plugin_list (state_of (load_one host fname st))) =
    List.length (plugin_list st) + (if is_loaded o then 1 else 0).
Proof.
  rewrite load_one_plugin_list, load_one_events, length_app.
  plugin_new_paths host (Some fname) st; read_trace;
    try (eexists; split; [reflexivity | reflexivity]).
  - destruct (version_events_report_bad host m Hv) as (vc & _ & _ & Hrep).
    rewrite Hrep. eexists; split; reflexivity.
  - rewrite version_events_report_ok by assumption.
    eexists; split; reflexivity.
  - rewrite version_events_report_ok by assumption.
    eexists; split; reflexivity.
Qed.

Lemma load_one_attempt (fname : string) (st : State) :
  g_module_supported host = true ->
  open_attempts (events_of (load_one host fname st)) = [fname].
Proof.
  intro Hsup. rewrite load_one_events.
  plugin_new_paths host (Some fname) st; try congruence; read_trace; reflexivity.
Qed.

Lemma load_one_new_identity (fname : string) (st : State) (n : string) :
  In n (live_identities (plugin_list (state_of (load_one host fname st)))) ->
  In n (live_identities (plugin_list st)) \/
  exists m, g_module_open host fname = Some m /\ n = g_module_name m.
Proof.
  rewrite load_one_plugin_list, live_identities_app, in_app_iff.
  plugin_new_paths host (Some fname) st; unfold result_of; simpl;
    intros [H|H]; auto; try contradiction.
  destruct H as [H|[]]. right. exists m. auto.
Qed.

(** A candidate that collides with no live record gets the outcome its
    gates decide. *)
Lemma load_one_gate_outcome (fname : string) (st : State) :
  g_module_supported host = true ->
  (forall m, g_module_open host fname = Some m ->
             ~ In (g_module_name m) (live_identities (plugin_list st))) ->
  load_report (events_of (load_one host fname st)) = [gate_outcome host fname] /\
  List.length (plugin_list (state_of (load_one host fname st))) =
    List.length (plugin_list st) + (if passes_every_gate host fname then 1 else 0).
Proof.
  intros Hsup Hfresh.
  rewrite load_one_plugin_list, load_one_events, length_app.
  rewrite <- gate_outcome_loaded. unfold gate_outcome.
  plugin_new_paths host (Some fname) st; try congruence; read_trace;
    rewrite Ho.
  - split; reflexivity.
  - apply plugin_loaded_items_true in Hl. apply Hfresh in Ho. contradiction.
  - destruct (version_events_report_bad host m Hv) as (vc & Hvc & Hnz & Hrep).
    rewrite Hrep, Hvc. cbn zeta.
    destruct (Z.ltb_spec (vc (abi_version host)) 0); [split; reflexivity|].
    destruct (Z.ltb_spec 0 (vc (abi_version host)));
      [split; reflexivity | exfalso; lia].
  - rewrite version_events_report_ok by assumption.
    unfold version_ok in Hv. rewrite Hi.
    destruct (sym_version_check m) as [vc|]; [|split; reflexivity].
    apply Z.eqb_eq in Hv. rewrite Hv. split; reflexivity.
  - rewrite version_events_report_ok by assumption.
    unfold version_ok in Hv. rewrite Hi.
    destruct (sym_version_check m) as [vc|]; [|split; reflexivity].
    apply Z.eqb_eq in Hv. rewrite Hv. split; reflexivity.
Qed.

Lemma loads_report (fnames : list string) (st : State) :
  List.length (load_report (events_of (for_each fnames (load_one host) st))) =
    List.length fnames /\
  List.length (plugin_list (state_of (for_each fnames (load_one host) st))) =
    List.length (plugin_list st) +
    List.length (filter is_loaded
              (load_report (events_of (for_each fnames (load_one host) st)))).
Proof.
  revert st; induction fnames as [|f fnames IH]; intro st.
  - unfold state_of, events_of; simpl. split; [reflexivity | lia].
  - rewrite for_each_cons.
    change (state_of (tt, ?s, ?e)) with s. change (events_of (tt, ?s, ?e)) with e.
    destruct (IH (state_of (load_one host f st))) as [IH1 IH2].
    destruct (load_one_report f st) as (o & Ho & Hlen).
    rewrite load_report_app, filter_app, !length_app, IH1, IH2, Hlen, Ho.
    simpl. destruct (is_loaded o); simpl; split; lia.
Qed.

Lemma loads_attempts (fnames : list string) (st : State) :
  g_module_supported host = true ->
  open_attempts (events_of (for_each fnames (load_one host) st)) = fnames.
Proof.
  intro Hsup. revert st; induction fnames as [|f fnames IH]; intro st;
    [reflexivity|].
  rewrite for_each_cons.
  change (events_of (tt, ?s, ?e)) with e.
  rewrite open_attempts_app, IH, load_one_attempt by assumption. reflexivity.
Qed.

Lemma loads_distinct (fnames : list string) (st : State) :
  g_module_supported host = true ->
  NoDup (candidate_identities host fnames) ->
  (forall n, In n (live_identities (plugin_list st)) ->
             ~ In n (candidate_identities host fnames)) ->
  load_report (events_of (for_each fnames (load_one host) st)) =
    map (gate_outcome host) fnames /\
  List.length (plugin_list (state_of (for_each fnames (load_one host) st))) =
    List.length (plugin_list st) + List.length (filter (passes_every_gate host) fnames).
Proof.
  intro Hsup. revert st; induction fnames as [|f fnames IH]; intros st Hnd Hsep.
  - unfold state_of, events_of; simpl. split; [reflexivity | lia].
  - rewrite for_each_cons.
    change (state_of (tt, ?s, ?e)) with s. change (events_of (tt, ?s, ?e)) with e.
    destruct (load_one_gate_outcome f st Hsup) as (Hrep & Hlen).
    { intros m Ho Hin. apply (Hsep _ Hin). simpl. rewrite Ho. left; reflexivity. }
    pose proof (load_one_new_identity f st) as Hids.
    destruct (IH (state_of (load_one host f st))) as [IH1 IH2].
    { simpl in Hnd. destruct (g_module_open host f);
        [inversion Hnd; assumption | exact Hnd]. }
    { intros n Hn Hcand. destruct (Hids n Hn) as [Hold | (m & Ho & ->)].
      - apply (Hsep n Hold). simpl. destruct (g_module_open host f);
          [right; exact Hcand | exact Hcand].
      - simpl in Hnd. rewrite Ho in Hnd. inversion Hnd; contradiction. }
    rewrite load_report_app, Hrep, IH1, IH2, Hlen. simpl.
    destruct (passes_every_gate host f); simpl; split; (reflexivity || lia).
Qed.

End Scan.

(** C5: [plugins_init] makes one load attempt per candidate, in discovery
    order, whatever the earlier ones ended in: the report read off its log
    has one outcome per candidate and as many [Loaded] entries as there are
    live records afterwards, and every candidate path reaches
    [g_module_open].  When the candidates the loader can open have pairwise
    distinct canonical identities, each candidate's outcome is the one its
    own gates decide, and the live set has as many records as there are
    candidates passing every gate. *)
Theorem plugins_init_attempts_all_and_counts (host : Host) :
  let files := candidate_paths host in
  let r := plugins_init host initial_state in
  List.length (load_report (events_of r)) = List.length files /\
  List.length (filter is_loaded (load_report (events_of r))) =
    List.length (plugin_list (state_of r)) /\
  (g_module_supported host = true ->
   open_attempts (events_of r) = files /\
   (NoDup (candidate_identities host files) ->
    load_report (events_of r) = map (gate_outcome host) files /\
    List.length (plugin_list (state_of r)) =
      List.length (filter (passes_every_gate host) files))).
Proof.
  intros files r. unfold r. rewrite plugins_init_run.
  fold (after_loads host (candidate_paths host)).
  rewrite after_loads_eq, run_loads_events. fold files.
  destruct (loads_report host files (state_of (init_function_pointers initial_state)))
    as [Hlen Hcount].
  split; [exact Hlen|]. split; [simpl in Hcount; lia|].
  intro Hsup. split; [apply loads_attempts; exact Hsup|].
  intro Hnd.
  destruct (loads_distinct host files (state_of (init_function_pointers initial_state))
              Hsup Hnd) as [Hrep Hsize]; [intros n []|].
  split; [exact Hrep | exact Hsize].
Qed.

Lemma plugins_init_attempts_all_and_counts_witness :
  let files := candidate_paths Demo.host_distinct in
  let r := plugins_init Demo.host_distinct initial_state in
  g_module_supported Demo.host_distinct = true /\
  NoDup (candidate_identities Demo.host_distinct files) /\
  open_attempts (events_of r) = files /\
  load_report (events_of r) = map (gate_outcome Demo.host_distinct) files /\
  List.length (plugin_list (state_of r)) =
    List.length (filter (passes_every_gate Demo.host_distinct) files).
Proof.
  intros files r.
  assert (Hnd : NoDup (candidate_identities Demo.host_distinct files)).
  { vm_compute. repeat constructor; simpl; intuition discriminate. }
  destruct (plugins_init_attempts_all_and_counts Demo.host_distinct)
    as (_ & _ & Hsup).
  destruct (Hsup eq_refl) as [Hattempts Hdistinct].
  destruct (Hdistinct Hnd) as [Hrep Hsize].
  repeat split; assumption.
Defined.

(** ** The live set after [plugins_free] *)

Lemma plugins_free_state (host : Host) (st : State) :
  state_of (plugins_free host st) = st.
Proof. rewrite plugins_free_run. reflexivity. Qed.

(** C6, evaluated: after [plugins_init] on the sample directory and then
    [plugins_free], every record has been released and [g_list_free] has
    been called on the list, yet [plugin_list] still has the value it had
    before, a non-null pointer to the two released nodes.  [plugins_free]
    never assigns [NULL] to it. *)
Theorem plugins_free_leaves_plugin_list_set :
  let st := state_of (plugins_init Demo.host initial_state) in
  let r := plugins_free Demo.host st in
  freed_records (events_of r) = plugin_list st /\
  In (EvListFree (plugin_list st)) (events_of r) /\
  plugin_list (state_of r) = plugin_list st /\
  plugin_list (state_of r) <> [] /\
  live_identities (plugin_list (state_of r)) =
    ["/usr/lib/geany/a.so"; "/usr/lib/geany/g.so"].
Proof.
  intros st r.
  split; [reflexivity|].
  split; [unfold r; rewrite plugins_free_events; apply in_or_app; right; left;
          reflexivity|].
  split; [unfold r; rewrite plugins_free_state; reflexivity|].
  split; [unfold r; rewrite plugins_free_state; discriminate|].
  reflexivity.
Qed.

(** ** The end-to-end scenario of the specification

    The sample directory: one [Loaded] for [a.so], [AlreadyLoaded] for its
    second name, [RequiresNewerHost 1], [TooOld], [MissingInfo],
    [OpenFailed], and one [Loaded] for the bare [g.so]; unloading calls the
    one [cleanup] there is, once, and closes both modules in load order. *)
Example sample_directory_scenario :
  let r := plugins_init Demo.host initial_state in
  let unload := events_of (plugins_free Demo.host (state_of r)) in
  load_report (events_of r) =
    [Loaded; Rejected AlreadyLoaded; Rejected (RequiresNewerHost 1);
     Rejected TooOld; Rejected MissingInfo; Rejected OpenFailed; Loaded] /\
  init_calls (events_of r) = [101] /\
  closed_modules (events_of r) =
    [Demo.mod_a; Demo.mod_c; Demo.mod_d; Demo.mod_e] /\
  cleanup_calls unload = [102] /\
  closed_modules unload = [Demo.mod_a; Demo.mod_g] /\
  complaints unload = [msg_close_error (Some Demo.path_g)].
Proof. repeat split. Qed.

(** * Further properties of [plugins.c] *)

(** ** More about traces *)

Lemma version_check_calls_app (l1 l2 : list Event) :
  version_check_calls (l1 ++ l2) = version_check_calls l1 ++ version_check_calls l2.
Proof. revert l2; observer_app l1. Qed.

Lemma info_calls_app (l1 l2 : list Event) :
  info_calls (l1 ++ l2) = info_calls l1 ++ info_calls l2.
Proof. revert l2; observer_app l1. Qed.

Lemma init_invocations_app (l1 l2 : list Event) :
  init_invocations (l1 ++ l2) = init_invocations l1 ++ init_invocations l2.
Proof. revert l2; observer_app l1. Qed.

Lemma debug_messages_app (l1 l2 : list Event) :
  debug_messages (l1 ++ l2) = debug_messages l1 ++ debug_messages l2.
Proof. revert l2; observer_app l1. Qed.



Lemma live_modules_app (l1 l2 : list Plugin) :
  live_modules (l1 ++ l2) = live_modules l1 ++ live_modules l2.
Proof.
  induction l1 as [|p l1 IH]; simpl; auto.
  destruct (module p); simpl; rewrite IH; reflexivity.
Qed.

Section MoreBlocks.

Variable host : Host.

Lemma close_events_complaints (fname : string) (m : GModule) :
  complaints (close_events host fname m) =
  if g_module_close host m then [] else [msg_close_error (Some fname)].
Proof. unfold close_events. destruct (g_module_close host m); reflexivity. Qed.

Lemma close_events_version (fname : string) (m : GModule) :
  version_check_calls (close_events host fname m) = [].
Proof. unfold close_events. destruct (g_module_close host m); reflexivity. Qed.

Lemma close_events_info (fname : string) (m : GModule) :
  info_calls (close_events host fname m) = [].
Proof. unfold close_events. destruct (g_module_close host m); reflexivity. Qed.

Lemma close_events_invocations (fname : string) (m : GModule) :
  init_invocations (close_events host fname m) = [].
Proof. unfold close_events. destruct (g_module_close host m); reflexivity. Qed.

Lemma close_events_cleanup (fname : string) (m : GModule) :
  cleanup_calls (close_events host fname m) = [].
Proof. unfold close_events. destruct (g_module_close host m); reflexivity. Qed.

Lemma version_events_info (m : GModule) :
  info_calls (version_events host m) = [].
Proof.
  unfold version_events; destruct (sym_version_check m) as [vc|];
    [simpl; destruct (vc (abi_version host)); reflexivity | reflexivity].
Qed.

Lemma version_events_invocations (m : GModule) :
  init_invocations (version_events host m) = [].
Proof.
  unfold version_events; destruct (sym_version_check m) as [vc|];
    [simpl; destruct (vc (abi_version host)); reflexivity | reflexivity].
Qed.

Lemma version_events_cleanup (m : GModule) :
  cleanup_calls (version_events host m) = [].
Proof.
  unfold version_events; destruct (sym_version_check m) as [vc|];
    [simpl; destruct (vc (abi_version host)); reflexivity | reflexivity].
Qed.

Lemma version_events_calls (m : GModule) :
  version_check_calls (version_events host m) =
  match sym_version_check m with
  | Some version_check => [(abi_version host, version_check (abi_version host))]
  | None => []
  end.
Proof.
  unfold version_events; destruct (sym_version_check m) as [vc|];
    [simpl; destruct (vc (abi_version host)); reflexivity | reflexivity].
Qed.

Lemma init_events_version (fname : string) (m : GModule) (i : PluginInfo) :
  version_check_calls (init_events host fname m i) = [].
Proof. unfold init_events. destruct (sym_init m); reflexivity. Qed.

Lemma init_events_info (fname : string) (m : GModule) (i : PluginInfo) :
  info_calls (init_events host fname m i) = [i; i; i].
Proof. unfold init_events. destruct (sym_init m); reflexivity. Qed.

Lemma init_events_cleanup (fname : string) (m : GModule) (i : PluginInfo) :
  cleanup_calls (init_events host fname m i) = [].
Proof. unfold init_events. destruct (sym_init m); reflexivity. Qed.

Lemma init_events_invocations (fname : string) (m : GModule) (i : PluginInfo) :
  init_invocations (init_events host fname m i) =
  init_entries [new_record host fname m i].
Proof. unfold init_events. simpl. destruct (sym_init m); reflexivity. Qed.

End MoreBlocks.

#[export] Hint Rewrite version_check_calls_app info_calls_app init_invocations_app
  debug_messages_app close_events_complaints close_events_version
  close_events_info close_events_invocations close_events_cleanup
  version_events_info version_events_invocations version_events_cleanup
  version_events_calls init_events_version init_events_info init_events_cleanup
  init_events_invocations : trace.

Ltac read_calls :=
  unfold result_of, state_of, events_of; cbn [fst snd];
  repeat (cbn [closed_modules opened_modules open_attempts init_calls
               cleanup_calls complaints loaded_files freed_records load_report
               outcome_of_event version_check_calls info_calls
               init_invocations debug_messages app];
          autorewrite with trace).

(** ** [plugin_loaded] *)

Lemma live_identities_in (n : string) (l : list Plugin) :
  In n (live_identities l) <->
  exists p pm, In p l /\ module p = Some pm /\ g_module_name pm = n.
Proof.
  induction l as [|q l IH]; simpl.
  - split; [tauto | intros (p & pm & [] & _)].
  - destruct (module q) as [qm|] eqn:Hq; simpl; rewrite ?IH; split.
    + intros [H|(p & pm & Hp & Hm & Hn)];
        [exists q, qm; auto | exists p, pm; auto].
    + intros (p & pm & [Hp|Hp] & Hm & Hn);
        [subst p; left; congruence | right; exists p, pm; auto].
    + intros (p & pm & Hp & Hm & Hn). exists p, pm; auto.
    + intros (p & pm & [Hp|Hp] & Hm & Hn);
        [subst p; congruence | exists p, pm; auto].
Qed.

(** X1: [plugin_loaded] answers [TRUE] exactly when some record of
    [plugin_list] has a module whose [g_module_name] is that of the module
    asked about, compared as strings and whatever path either was opened
    from; it prints nothing and leaves the static state alone. *)
Theorem plugin_loaded_finds_same_name (m : GModule) (st : State) :
  state_of (plugin_loaded m st) = st /\
  events_of (plugin_loaded m st) = [] /\
  (result_of (plugin_loaded m st) = true <->
   exists p pm,
     In p (plugin_list st) /\ module p = Some pm /\
     g_module_name pm = g_module_name m).
Proof.
  split; [reflexivity|]. split; [reflexivity|].
  change (result_of (plugin_loaded m st))
    with (plugin_loaded_items (g_module_name m) (plugin_list st)).
  rewrite plugin_loaded_items_true. apply live_identities_in.
Qed.

(** ** [plugin_check_version] *)

(** X2: [plugin_check_version] answers [TRUE] exactly when the module has no
    [version_check] or its [version_check] returns 0 for the host's
    [abi_version]; it calls [version_check] once when there is one, with
    that argument; it prints one debug line when it answers [FALSE] and
    none otherwise; it closes nothing and changes no static state. *)
Theorem plugin_check_version_decides (host : Host) (m : GModule) (st : State) :
  state_of (plugin_check_version host m st) = st /\
  (result_of (plugin_check_version host m st) = true <->
   sym_version_check m = None \/
   exists version_check,
     sym_version_check m = Some version_check /\
     version_check (abi_version host) = 0%Z) /\
  version_check_calls (events_of (plugin_check_version host m st)) =
    match sym_version_check m with
    | Some version_check => [(abi_version host, version_check (abi_version host))]
    | None => []
    end /\
  List.length (debug_messages (events_of (plugin_check_version host m st))) =
    (if result_of (plugin_check_version host m st) then 0 else 1) /\
  closed_modules (events_of (plugin_check_version host m st)) = [] /\
  complaints (events_of (plugin_check_version host m st)) = [].
Proof.
  rewrite plugin_check_version_run. read_calls.
  split; [reflexivity|]. split; [|split; [reflexivity|split; [|split; reflexivity]]].
  - unfold version_ok. destruct (sym_version_check m) as [vc|].
    + rewrite Z.eqb_eq. split.
      * intro H. right. exists vc. auto.
      * intros [H|(vc' & H & Hz)]; congruence.
    + split; auto.
  - unfold version_ok, version_events.
    destruct (sym_version_check m) as [vc|]; [|reflexivity].
    simpl. destruct (vc (abi_version host)); reflexivity.
Qed.

(** ** [plugin_new], whatever it is given *)

(** X3: every call of [plugin_new], with any argument in any state, leaves
    the static state as it was, calls [g_module_open] at most once and
    prints exactly one outcome; the outcome is [Loaded] exactly when a
    record is returned. *)
Theorem plugin_new_one_outcome (host : Host) (fname : option string) (st : State) :
  state_of (plugin_new host fname st) = st /\
  List.length (open_attempts (events_of (plugin_new host fname st))) <= 1 /\
  exists o,
    load_report (events_of (plugin_new host fname st)) = [o] /\
    (o = Loaded <-> exists p, result_of (plugin_new host fname st) = Some p).
Proof.
  plugin_new_paths host fname st; read_calls;
    (split; [reflexivity|]); (split; [simpl; lia|]).
  - eexists; split; [reflexivity|]. split; [discriminate | intros (p & Hp); discriminate].
  - eexists; split; [reflexivity|]. split; [discriminate | intros (p & Hp); discriminate].
  - eexists; split; [reflexivity|]. split; [discriminate | intros (p & Hp); discriminate].
  - eexists; split; [reflexivity|]. split; [discriminate | intros (p & Hp); discriminate].
  - destruct (version_events_report_bad host m Hv) as (vc & _ & _ & Hrep).
    rewrite Hrep. eexists; split; [reflexivity|].
    split; [destruct (vc (abi_version host) <? 0)%Z; discriminate
           | intros (p & Hp); discriminate].
  - rewrite version_events_report_ok by assumption.
    eexists; split; [reflexivity|]. split; [discriminate | intros (p & Hp); discriminate].
  - rewrite version_events_report_ok by assumption.
    eexists; split; [reflexivity|]. split; [eauto | reflexivity].
Qed.

(** X4: a load attempt that is rejected runs none of the module's [info],
    [init] or [cleanup], and [version_check] at most once; when the module is
    already loaded under its name, not even [version_check] is called: the
    duplicate check comes before any plugin code. *)
Theorem rejected_module_code_not_run (host : Host) (fname : string) (st : State) :
  result_of (plugin_new host (Some fname) st) = None ->
  info_calls (events_of (plugin_new host (Some fname) st)) = [] /\
  init_invocations (events_of (plugin_new host (Some fname) st)) = [] /\
  cleanup_calls (events_of (plugin_new host (Some fname) st)) = [] /\
  List.length (version_check_calls (events_of (plugin_new host (Some fname) st))) <= 1 /\
  forall m,
    g_module_open host fname = Some m ->
    plugin_loaded_items (g_module_name m) (plugin_list st) = true ->
    version_check_calls (events_of (plugin_new host (Some fname) st)) = [].
Proof.
  plugin_new_paths host (Some fname) st; read_calls; intro Hnone;
    try discriminate.
  - repeat split; simpl; try lia.
  - repeat split; simpl; try lia.
  - repeat split; simpl; try lia.
  - repeat split; simpl; try lia. destruct (sym_version_check m); simpl; lia.
    intros m' Ho' Hl'. congruence.
  - repeat split; simpl; try lia. destruct (sym_version_check m); simpl; lia.
    intros m' Ho' Hl'. congruence.
Qed.

Lemma rejected_module_code_not_run_witness :
  let st := after_loads Demo.host [Demo.path_a] in
  result_of (plugin_new Demo.host (Some Demo.path_b) st) = None /\
  info_calls (events_of (plugin_new Demo.host (Some Demo.path_b) st)) = [] /\
  init_invocations (events_of (plugin_new Demo.host (Some Demo.path_b) st)) = [] /\
  version_check_calls (events_of (plugin_new Demo.host (Some Demo.path_b) st)) = [].
Proof.
  intro st.
  destruct (rejected_module_code_not_run Demo.host Demo.path_b st eq_refl)
    as (H1 & H2 & _ & _ & H3).
  split; [reflexivity|]. split; [exact H1|]. split; [exact H2|].
  apply (H3 Demo.mod_a); reflexivity.
Defined.

(** X5: [plugin_new] complains (warning or critical) only about the loader:
    on a platform with module support it warns once when [g_module_open]
    fails, once, naming the file, when a rejected module cannot be closed,
    and not at all otherwise; rejections for a duplicate, a version mismatch
    or a missing [info] are debug output only. *)
Theorem plugin_new_warns_about_loader_only (host : Host) (fname : string)
  (st : State) :
  g_module_supported host = true ->
  complaints (events_of (plugin_new host (Some fname) st)) =
  match g_module_open host fname with
  | None => [msg_module_error]
  | Some m =>
      match result_of (plugin_new host (Some fname) st) with
      | Some _ => []
      | None =>
          if g_module_close host m then [] else [msg_close_error (Some fname)]
      end
  end.
Proof.
  intro Hsup.
  plugin_new_paths host (Some fname) st; try congruence; read_calls;
    rewrite Ho; reflexivity.
Qed.

Lemma plugin_new_warns_about_loader_only_witness :
  complaints (events_of (plugin_new Demo.host (Some Demo.path_f) initial_state)) =
    [msg_module_error] /\
  complaints (events_of (plugin_new Demo.host (Some Demo.path_c) initial_state)) = [].
Proof.
  split.
  - apply (plugin_new_warns_about_loader_only Demo.host Demo.path_f initial_state eq_refl).
  - apply (plugin_new_warns_about_loader_only Demo.host Demo.path_c initial_state eq_refl).
Defined.

(** ** What a scan adds to the live set *)

Section Sequences.

Variable host : Host.






(** Whatever holds of every record [plugin_new] can build from the
    candidates holds of every record a scan adds. *)
Lemma loads_sound (Q : Plugin -> Prop) (fnames : list string) (st : State) :
  (forall f m i,
     In f fnames ->
     g_module_supported host = true ->
     g_module_open host f = Some m ->
     version_ok host m = true ->
     sym_info m = Some i ->
     Q (new_record host f m i)) ->
  Forall Q (plugin_list st) ->
  Forall Q (plugin_list (state_of (for_each fnames (load_one host) st))).
Proof.
  revert st; induction fnames as [|f fnames IH]; intros st HQ Hst; [exact Hst|].
  rewrite for_each_cons. change (state_of (tt, ?s, ?e)) with s.
  apply IH; [intros; apply HQ; simpl; auto|].
  rewrite load_one_plugin_list. apply Forall_app; split; [exact Hst|].
  plugin_new_paths host (Some f) st; unfold result_of; simpl; constructor;
    [|constructor].
  apply HQ; simpl; auto.
Qed.

End Sequences.


(** X7: every record of the live set was built by [plugin_new] from one of
    the paths it was given: its [filename] is that path (not the module's
    name), its module is what [g_module_open] returns for the path, that
    module exports [info] and passes the version check, its [init] and
    [cleanup] are the module's symbols and its [data] is the host view
    [init_plugin_data] assembles. *)
Theorem live_records_passed_every_gate (host : Host) (fnames : list string)
  (p : Plugin) :
  In p (plugin_list (after_loads host fnames)) ->
  exists f m i,
    In f fnames /\
    g_module_supported host = true /\
    g_module_open host f = Some m /\
    version_ok host m = true /\
    sym_info m = Some i /\
    passes_every_gate host f = true /\
    p = {| module := Some m;
           filename := Some f;
           data := init_plugin_data host;
           info := Some i;
           init := sym_init m;
           cleanup := sym_cleanup m |}.
Proof.
  intro Hin. rewrite after_loads_eq in Hin.
  assert (Hall : Forall
    (fun p => exists f m i,
       In f fnames /\ g_module_supported host = true /\
       g_module_open host f = Some m /\ version_ok host m = true /\
       sym_info m = Some i /\ passes_every_gate host f = true /\
       p = new_record host f m i)
    (plugin_list (state_of (for_each fnames (load_one host)
                    (state_of (init_function_pointers initial_state)))))).
  { apply loads_sound; [|constructor].
    intros f m i Hf Hs Ho Hv Hi. exists f, m, i.
    repeat split; auto. unfold passes_every_gate. rewrite Ho, Hv, Hi. reflexivity. }
  exact (proj1 (Forall_forall _ _) Hall p Hin).
Qed.

Lemma live_records_passed_every_gate_witness :
  exists f m i,
    In f [Demo.path_e; Demo.path_g] /\
    g_module_supported Demo.host = true /\
    g_module_open Demo.host f = Some m /\
    version_ok Demo.host m = true /\
    sym_info m = Some i /\
    passes_every_gate Demo.host f = true /\
    new_record Demo.host Demo.path_g Demo.mod_g Demo.info_g =
    {| module := Some m;
       filename := Some f;
       data := init_plugin_data Demo.host;
       info := Some i;
       init := sym_init m;
       cleanup := sym_cleanup m |}.
Proof.
  apply (live_records_passed_every_gate Demo.host [Demo.path_e; Demo.path_g]).
  left. reflexivity.
Defined.

(** ** The live set only grows while loading *)

Section Growth.

Variable host : Host.

Lemma load_one_live_incl (f : string) (st : State) :
  incl (live_identities (plugin_list st))
       (live_identities (plugin_list (state_of (load_one host f st)))).
Proof.
  rewrite load_one_plugin_list, live_identities_app.
  intros n Hn. apply in_or_app. left; exact Hn.
Qed.

Lemma loads_live_incl (fnames : list string) (st : State) :
  incl (live_identities (plugin_list st))
       (live_identities (plugin_list (state_of (for_each fnames (load_one host) st)))).
Proof.
  revert st; induction fnames as [|f fnames IH]; intro st; [apply incl_refl|].
  rewrite for_each_cons. change (state_of (tt, ?s, ?e)) with s.
  eapply incl_tran; [apply load_one_live_incl | apply IH].
Qed.

(** A candidate that passes every gate has its identity in the live set once
    it has been processed, loaded now or before. *)
Lemma load_one_passing_is_live (f : string) (m : GModule) (st : State) :
  g_module_supported host = true ->
  g_module_open host f = Some m ->
  passes_every_gate host f = true ->
  In (g_module_name m) (live_identities (plugin_list (state_of (load_one host f st)))).
Proof.
  intros Hs Ho Hp.
  destruct (plugin_loaded_items (g_module_name m) (plugin_list st)) eqn:Hl.
  - apply load_one_live_incl, plugin_loaded_items_true, Hl.
  - unfold passes_every_gate in Hp. rewrite Ho in Hp.
    apply andb_prop in Hp. destruct Hp as [Hv Hi].
    destruct (sym_info m) as [i|] eqn:Hinfo; [|discriminate].
    rewrite load_one_plugin_list, (plugin_new_loaded host f m i st) by assumption.
    rewrite live_identities_app. apply in_or_app. right. left. reflexivity.
Qed.

Lemma passing_identities_live (fnames : list string) (st : State) (n : string) :
  g_module_supported host = true ->
  In n (passing_identities host fnames) ->
  In n (live_identities (plugin_list (state_of (for_each fnames (load_one host) st)))).
Proof.
  intro Hs. revert st; induction fnames as [|f fnames IH]; intros st Hn;
    [contradiction|].
  rewrite for_each_cons. change (state_of (tt, ?s, ?e)) with s.
  simpl in Hn. destruct (g_module_open host f) as [m|] eqn:Ho; [|apply IH, Hn].
  destruct (passes_every_gate host f) eqn:Hp; [|apply IH, Hn].
  destruct Hn as [<-|Hn]; [|apply IH, Hn].
  apply loads_live_incl, load_one_passing_is_live; assumption.
Qed.

Lemma passing_identities_in (fnames : list string) (f : string) (m : GModule) :
  In f fnames ->
  g_module_open host f = Some m ->
  passes_every_gate host f = true ->
  In (g_module_name m) (passing_identities host fnames).
Proof.
  intros Hf Ho Hp. induction fnames as [|g fnames IH]; [contradiction|].
  simpl. destruct Hf as [->|Hf].
  - rewrite Ho, Hp. left; reflexivity.
  - destruct (g_module_open host g); [destruct (passes_every_gate host g)|];
      simpl; auto.
Qed.

Lemma live_identities_length (l : list Plugin) :
  Forall (fun p => module p <> None) l ->
  List.length (live_identities l) = List.length l.
Proof.
  induction 1 as [|p l Hp Hl IH]; [reflexivity|].
  simpl. destruct (module p); [simpl; rewrite IH; reflexivity | congruence].
Qed.

Lemma after_loads_origin (fnames : list string) (p : Plugin) :
  In p (plugin_list (after_loads host fnames)) ->
  exists f m,
    In f fnames /\ g_module_open host f = Some m /\
    passes_every_gate host f = true /\ module p = Some m.
Proof.
  intro Hin. rewrite after_loads_eq in Hin.
  assert (Hall : Forall
    (fun p => exists f m,
       In f fnames /\ g_module_open host f = Some m /\
       passes_every_gate host f = true /\ module p = Some m)
    (plugin_list (state_of (for_each fnames (load_one host)
                    (state_of (init_function_pointers initial_state)))))).
  { apply loads_sound; [|constructor].
    intros f m i Hf Hs Ho Hv Hi. exists f, m.
    repeat split; auto. unfold passes_every_gate. rewrite Ho, Hv, Hi. reflexivity. }
  exact (proj1 (Forall_forall _ _) Hall p Hin).
Qed.

End Growth.

(** X8: with or without several paths for one module, the identities of the
    live set after a scan from program start are exactly the identities of
    the candidates that pass every gate, each once: the live set has as many
    records as there are distinct such identities. *)
Theorem live_set_counts_distinct_identities (host : Host) (fnames : list string) :
  g_module_supported host = true ->
  (forall n,
     In n (live_identities (plugin_list (after_loads host fnames))) <->
     In n (passing_identities host fnames)) /\
  List.length (plugin_list (after_loads host fnames)) =
    List.length (nodup string_dec (passing_identities host fnames)).
Proof.
  intro Hs.
  assert (Hsame : forall n,
             In n (live_identities (plugin_list (after_loads host fnames))) <->
             In n (passing_identities host fnames)).
  { intro n. split.
    - intro Hn. apply live_identities_in in Hn.
      destruct Hn as (p & pm & Hp & Hm & <-).
      destruct (after_loads_origin host fnames p Hp)
        as (f & m & Hf & Ho & Hg & Hpm).
      assert (pm = m) by congruence. subst pm.
      eapply passing_identities_in; eassumption.
    - intro Hn. rewrite after_loads_eq.
      apply passing_identities_live; assumption. }
  split; [exact Hsame|].
  rewrite <- (live_identities_length (plugin_list (after_loads host fnames)))
    by apply after_loads_have_module.
  apply Permutation_length, NoDup_Permutation.
  - apply after_loads_unique.
  - apply NoDup_nodup.
  - intro n. rewrite nodup_In. apply Hsame.
Qed.

Lemma live_set_counts_distinct_identities_witness :
  g_module_supported Demo.host = true /\
  List.length (passing_identities Demo.host (candidate_paths Demo.host)) = 3 /\
  List.length (plugin_list (after_loads Demo.host (candidate_paths Demo.host))) =
    List.length (nodup string_dec
                   (passing_identities Demo.host (candidate_paths Demo.host))).
Proof.
  split; [reflexivity|]. split; [reflexivity|].
  apply (live_set_counts_distinct_identities Demo.host (candidate_paths Demo.host)
           eq_refl).
Defined.

(** ** Handles over the whole life cycle *)

Section Balance.

Variable host : Host.

Lemma load_one_handle_balance (f : string) (st : State) :
  opened_modules (events_of (plugin_new host (Some f) st)) =
  closed_modules (events_of (plugin_new host (Some f) st)) ++
  live_modules match result_of (plugin_new host (Some f) st) with
               | Some p => [p]
               | None => []
               end.
Proof. plugin_new_paths host (Some f) st; read_calls; reflexivity. Qed.

Lemma loads_handle_balance (fnames : list string) (st : State) :
  Permutation
    (live_modules (plugin_list st) ++
     opened_modules (events_of (for_each fnames (load_one host) st)))
    (closed_modules (events_of (for_each fnames (load_one host) st)) ++
     live_modules (plugin_list (state_of (for_each fnames (load_one host) st)))).
Proof.
  revert st; induction fnames as [|f fnames IH]; intro st.
  - unfold state_of, events_of; simpl. rewrite app_nil_r. apply Permutation_refl.
  - rewrite for_each_cons.
    change (state_of (tt, ?s, ?e)) with s. change (events_of (tt, ?s, ?e)) with e.
    rewrite opened_modules_app, closed_modules_app, load_one_events.
    rewrite load_one_handle_balance.
    specialize (IH (state_of (load_one host f st))).
    rewrite load_one_plugin_list, live_modules_app in IH.
    set (c1 := closed_modules (events_of (plugin_new host (Some f) st))) in *.
    set (a1 := live_modules match result_of (plugin_new host (Some f) st) with
                            | Some p => [p]
                            | None => []
                            end) in *.
    set (L := live_modules (plugin_list st)) in *.
    set (o2 := opened_modules _) in *. set (c2 := closed_modules _) in *.
    apply Permutation_trans with (c1 ++ (L ++ a1) ++ o2).
    + rewrite <- !app_assoc. rewrite (app_assoc L c1), (app_assoc c1 L).
      apply Permutation_app_tail, Permutation_app_comm.
    + rewrite <- (app_assoc c1 c2). apply Permutation_app_head. exact IH.
Qed.

Lemma unload_closes_live_modules (l : list Plugin) :
  closed_modules (flat_map (unload_events host) l) = live_modules l.
Proof.
  induction l as [|p l IH]; [reflexivity|].
  simpl. rewrite closed_modules_app, IH.
  unfold unload_events, cleanup_events, release_events.
  destruct (module p) as [m|]; [|reflexivity].
  destruct (cleanup p); destruct (g_module_close host m); reflexivity.
Qed.

Lemma plugins_free_closes_live_modules (st : State) :
  closed_modules (events_of (plugins_free host st)) = live_modules (plugin_list st).
Proof.
  rewrite plugins_free_events. destruct (plugin_list st) as [|p l] eqn:E;
    [reflexivity|].
  rewrite closed_modules_app, unload_closes_live_modules. simpl.
  apply app_nil_r.
Qed.

End Balance.

(** X9: over a whole life cycle, loading any sequence of candidates from
    program start and then calling [plugins_free], every module
    [g_module_open] returned is handed to [g_module_close], as often as it
    was returned: the modules closed while loading (the rejected ones)
    together with those closed by [plugins_free] (the live ones) are a
    rearrangement of the modules opened. *)
Theorem life_cycle_closes_every_opened_module (host : Host) (fnames : list string) :
  Permutation
    (opened_modules (events_of (run_loads host fnames)))
    (closed_modules (events_of (run_loads host fnames)) ++
     closed_modules (events_of (plugins_free host (after_loads host fnames)))).
Proof.
  rewrite plugins_free_closes_live_modules, run_loads_events, after_loads_eq.
  exact (loads_handle_balance host fnames
           (state_of (init_function_pointers initial_state))).
Qed.

(** ** Scanning again *)

Section Rescan.

Variable host : Host.





(** A scan in which every candidate is rejected changes nothing. *)
Lemma all_rejected_scan (fnames : list string) (st : State) :
  (forall f, In f fnames -> result_of (plugin_new host (Some f) st) = None) ->
  state_of (for_each fnames (load_one host) st) = st /\
  events_of (for_each fnames (load_one host) st) =
    flat_map (fun f => events_of (plugin_new host (Some f) st)) fnames.
Proof.
  induction fnames as [|f fnames IH]; intro Hall; [split; reflexivity|].
  rewrite for_each_cons.
  change (state_of (tt, ?s, ?e)) with s. change (events_of (tt, ?s, ?e)) with e.
  assert (Hst : state_of (load_one host f st) = st).
  { rewrite load_one_run, (Hall f) by (left; reflexivity). reflexivity. }
  rewrite Hst, load_one_events.
  destruct IH as [IH1 IH2]; [intros g Hg; apply Hall; right; exact Hg|].
  rewrite IH1, IH2. split; reflexivity.
Qed.

Lemma load_one_tables (f : string) (st : State) :
  doc_funcs (state_of (load_one host f st)) = doc_funcs st /\
  sci_funcs (state_of (load_one host f st)) = sci_funcs st /\
  template_funcs (state_of (load_one host f st)) = template_funcs st /\
  utils_funcs (state_of (load_one host f st)) = utils_funcs st.
Proof.
  rewrite load_one_run.
  destruct (result_of (plugin_new host (Some f) st)); repeat split.
Qed.

Lemma loads_tables (fnames : list string) (st : State) :
  doc_funcs (state_of (for_each fnames (load_one host) st)) = doc_funcs st /\
  sci_funcs (state_of (for_each fnames (load_one host) st)) = sci_funcs st /\
  template_funcs (state_of (for_each fnames (load_one host) st)) = template_funcs st /\
  utils_funcs (state_of (for_each fnames (load_one host) st)) = utils_funcs st.
Proof.
  revert st; induction fnames as [|f fnames IH]; intro st; [repeat split|].
  rewrite for_each_cons. change (state_of (tt, ?s, ?e)) with s.
  destruct (IH (state_of (load_one host f st))) as (H1 & H2 & H3 & H4).
  destruct (load_one_tables f st) as (G1 & G2 & G3 & G4).
  repeat split; congruence.
Qed.

Lemma plugins_init_unfold (st : State) :
  plugins_init host st =
  (tt,
   state_of (for_each (candidate_paths host) (load_one host)
               (state_of (init_function_pointers st))),
   events_of (for_each (candidate_paths host) (load_one host)
                (state_of (init_function_pointers st)))).
Proof.
  unfold plugins_init, candidate_paths. rewrite run_bind, for_each_map.
  destruct (for_each _ _ _) as [[[] s] e]. reflexivity.
Qed.

Lemma plugins_init_tables (st : State) :
  tables_populated (state_of (plugins_init host st)).
Proof.
  rewrite plugins_init_unfold. change (state_of (tt, ?s, ?e)) with s.
  destruct (loads_tables (candidate_paths host)
              (state_of (init_function_pointers st))) as (H1 & H2 & H3 & H4).
  unfold tables_populated. rewrite H1, H2, H3, H4. repeat split.
Qed.


End Rescan.


(** X11: on a platform without module support [plugins_init] opens nothing
    and loads nothing, whatever the directory holds and whatever state it
    starts in: [plugin_list] is unchanged, [g_module_open] is never called,
    and each candidate gets the guard's critical message. *)
Theorem unsupported_platform_loads_nothing (host : Host) (st : State) :
  g_module_supported host = false ->
  plugin_list (state_of (plugins_init host st)) = plugin_list st /\
  open_attempts (events_of (plugins_init host st)) = [] /\
  events_of (plugins_init host st) =
    repeat (EvCritical (msg_assertion_failed "g_module_supported()"))
           (List.length (candidate_paths host)).
Proof.
  intro Hu. rewrite plugins_init_unfold.
  change (state_of (tt, ?s, ?e)) with s. change (events_of (tt, ?s, ?e)) with e.
  set (st0 := state_of (init_function_pointers st)).
  destruct (all_rejected_scan host (candidate_paths host) st0) as [Hst Hev].
  { intros f _. rewrite plugin_new_unsupported by assumption. reflexivity. }
  rewrite Hst, Hev. split; [reflexivity|]. clear Hst Hev.
  induction (candidate_paths host) as [|f l IH]; [split; reflexivity|].
  cbn [flat_map List.length repeat]. rewrite plugin_new_unsupported by assumption.
  destruct IH as [IH1 IH2]. change (events_of (?a, ?s, ?e)) with e.
  rewrite open_attempts_app, IH1, IH2. split; reflexivity.
Qed.

Lemma unsupported_platform_loads_nothing_witness :
  plugin_list (state_of (plugins_init Demo.host_without_modules initial_state)) = [] /\
  open_attempts (events_of (plugins_init Demo.host_without_modules initial_state)) = [].
Proof.
  destruct (unsupported_platform_loads_nothing Demo.host_without_modules
              initial_state eq_refl) as (H1 & H2 & _).
  split; [exact H1 | exact H2].
Defined.

(** X12: after [plugins_init], from any state and for any directory, the
    four function tables hold the five host functions
    [init_function_pointers] stores, and the records that were in
    [plugin_list] before are still there, in place, in front of the new
    ones. *)
Theorem plugins_init_populates_tables (host : Host) (st : State) :
  tables_populated (state_of (plugins_init host st)) /\
  exists added,
    plugin_list (state_of (plugins_init host st)) = plugin_list st ++ added /\
    map filename added = map Some (loaded_files (events_of (plugins_init host st))).
Proof.
  split; [apply plugins_init_tables|].
  rewrite plugins_init_unfold.
  change (state_of (tt, ?s, ?e)) with s. change (events_of (tt, ?s, ?e)) with e.
  set (st0 := state_of (init_function_pointers st)).
  assert (Hlist : plugin_list st0 = plugin_list st) by reflexivity.
  rewrite <- Hlist. clearbody st0. clear Hlist.
  generalize (candidate_paths host) as fnames. intro fnames.
  revert st0. induction fnames as [|f fnames IH]; intro st0.
  - exists []. split; [symmetry; apply app_nil_r | reflexivity].
  - rewrite for_each_cons.
    change (state_of (tt, ?s, ?e)) with s. change (events_of (tt, ?s, ?e)) with e.
    destruct (IH (state_of (load_one host f st0))) as (added & Hl & Hf).
    rewrite Hl, load_one_plugin_list, loaded_files_app, map_app, <- Hf.
    rewrite load_one_events, <- app_assoc.
    eexists. split; [reflexivity|]. rewrite map_app. f_equal.
    plugin_new_paths host (Some f) st0; read_calls; reflexivity.
Qed.

(** ** What unloading prints, and what it leaves alone *)

Section UnloadLog.

Variable host : Host.

Lemma unload_events_log (l : list Plugin) :
  Forall (fun p => module p <> None) l ->
  complaints (flat_map (unload_events host) l) = close_failures host l /\
  List.length (debug_messages (flat_map (unload_events host) l)) +
  List.length (close_failures host l) = List.length l.
Proof.
  induction 1 as [|p l Hp Hl [IH1 IH2]]; [split; reflexivity|].
  cbn [flat_map close_failures].
  rewrite complaints_app, debug_messages_app, length_app, IH1.
  destruct (module p) as [m|] eqn:Hm; [|congruence].
  replace (unload_events host p) with (cleanup_events p ++ release_events host p m)
    by (unfold unload_events; rewrite Hm; reflexivity).
  unfold cleanup_events, release_events.
  set (rest := flat_map (unload_events host) l) in *.
  set (failures := close_failures host l) in *.
  destruct (cleanup p); destruct (g_module_close host m); simpl; split;
    (reflexivity || lia).
Qed.

Lemma unload_events_quiet (l : list Plugin) :
  open_attempts (flat_map (unload_events host) l) = [] /\
  init_invocations (flat_map (unload_events host) l) = [] /\
  info_calls (flat_map (unload_events host) l) = [] /\
  version_check_calls (flat_map (unload_events host) l) = [].
Proof.
  induction l as [|p l (IH1 & IH2 & IH3 & IH4)]; [repeat split|].
  cbn [flat_map].
  rewrite open_attempts_app, init_invocations_app, info_calls_app,
    version_check_calls_app, IH1, IH2, IH3, IH4.
  unfold unload_events, cleanup_events, release_events.
  destruct (module p) as [m|]; [|repeat split].
  destruct (cleanup p); destruct (g_module_close host m); repeat split.
Qed.

Lemma unload_events_guard (l : list Plugin) :
  freed_records (flat_map (unload_events host) l) =
    filter (fun p => match module p with Some _ => true | None => false end) l /\
  cleanup_calls (flat_map (unload_events host) l) =
    cleanup_entries
      (filter (fun p => match module p with Some _ => true | None => false end) l).
Proof.
  induction l as [|p l [IH1 IH2]]; [split; reflexivity|].
  cbn [flat_map filter].
  rewrite freed_records_app, cleanup_calls_app, IH1, IH2.
  unfold unload_events, cleanup_events, release_events.
  destruct (module p) as [m|]; [|split; reflexivity].
  simpl. destruct (cleanup p); destruct (g_module_close host m); split; reflexivity.
Qed.

End UnloadLog.

(** X13: [plugins_free] on a live set built by loading prints exactly one
    line per record: a warning naming the record's file when the loader
    fails to close its module, the debug line [Unloaded] otherwise; so its
    warnings are the close failures, in list order, and nothing is logged at
    critical level. *)
Theorem plugins_free_logs_each_record (host : Host) (fnames : list string) :
  complaints (events_of (plugins_free host (after_loads host fnames))) =
    close_failures host (plugin_list (after_loads host fnames)) /\
  List.length (debug_messages (events_of (plugins_free host (after_loads host fnames)))) +
  List.length (complaints (events_of (plugins_free host (after_loads host fnames)))) =
    List.length (plugin_list (after_loads host fnames)).
Proof.
  pose proof (after_loads_have_module host fnames) as Hmod.
  destruct (unload_events_log host _ Hmod) as [H1 H2].
  rewrite plugins_free_events.
  destruct (plugin_list (after_loads host fnames)) as [|p l] eqn:E;
    [split; reflexivity|].
  rewrite complaints_app, debug_messages_app, H1. simpl complaints at 2.
  cbn [debug_messages]. rewrite !app_nil_r. split; [reflexivity | exact H2].
Qed.

(** X14: [plugins_free], in any state, opens no module and calls no [init],
    [info] or [version_check]; it closes the module of every record that has
    one, in list order; and, by the guard of [plugin_free], a record whose
    [module] is [NULL] is passed over: its [cleanup] is not called and the
    record is not released. *)
Theorem plugins_free_only_unloads (host : Host) (st : State) :
  open_attempts (events_of (plugins_free host st)) = [] /\
  init_invocations (events_of (plugins_free host st)) = [] /\
  info_calls (events_of (plugins_free host st)) = [] /\
  version_check_calls (events_of (plugins_free host st)) = [] /\
  closed_modules (events_of (plugins_free host st)) = live_modules (plugin_list st) /\
  freed_records (events_of (plugins_free host st)) =
    filter (fun p => match module p with Some _ => true | None => false end)
           (plugin_list st) /\
  cleanup_calls (events_of (plugins_free host st)) =
    cleanup_entries
      (filter (fun p => match module p with Some _ => true | None => false end)
              (plugin_list st)).
Proof.
  destruct (unload_events_quiet host (plugin_list st)) as (H1 & H2 & H3 & H4).
  destruct (unload_events_guard host (plugin_list st)) as (H5 & H6).
  pose proof (plugins_free_closes_live_modules host st) as H7.
  rewrite plugins_free_events in *.
  destruct (plugin_list st) as [|p l] eqn:E; [repeat split|].
  rewrite open_attempts_app, init_invocations_app, info_calls_app,
    version_check_calls_app, freed_records_app, cleanup_calls_app,
    H1, H2, H3, H4, H5, H6, H7.
  simpl. rewrite !app_nil_r. repeat split.
Qed.
